(** * open-api-generator: the scaffolding script [index.js]

    The program is one asynchronous function.  It validates the [-f]
    argument, scans the specification file for its version line,
    creates the versioned directory tree, registers the npm scripts,
    relocates the files and finally runs the external generators.

    The development has four parts:
    - [JS]: the string operations of the language that the script uses
      ([includes], [replace], [replaceAll], [trim], [substring]) on
      sequences of UTF-16 code units, and [path.extname] of the
      runtime (POSIX flavour);
    - [Script]: the function itself, written in a small monad that
      threads the outside world and the trace of observable events, and
      that has the two ways [main] stops early ([return] and a rejected
      [await]) as results.  The outside world (file system, line
      reader, npm, sub-processes) is an interface, [Runtime]; the
      operations started together under [Promise.all] are taken in the
      order of the array;
    - [Sim]: one instance of [Runtime], a small file system on which the
      script can be run;
    - [Spec]: the notions the properties are stated with.

    The properties of the script are proved on any runtime; the
    simulated file system serves to run it on particular inputs. *)

From Stdlib Require Import NArith ZArith Ascii String List Lia Bool.
From stdpp Require Import base option list gmap.

Local Open Scope N_scope.
Local Open Scope list_scope.

(** ** Strings of the language *)

Module JS.

(** A string is its sequence of UTF-16 code units. *)
Definition jsstring := list N.

(** String literals of the source, all of them ASCII. *)
Definition js (s : string) : jsstring :=
  List.map N_of_ascii (list_ascii_of_string s).
Arguments js s%_string : simpl never.

Definition eqb (a b : jsstring) : bool := bool_decide (a = b).

(** [s.startsWith(pat)] *)
Fixpoint starts_with (pat s : jsstring) : bool :=
  match pat, s with
  | [], _ => true
  | _ :: _, [] => false
  | p :: pat', c :: s' => (p =? c) && starts_with pat' s'
  end.

(** [s.includes(pat)] *)
Fixpoint includes (s pat : jsstring) : bool :=
  starts_with pat s ||
  match s with
  | [] => false
  | _ :: s' => includes s' pat
  end.

(** [s.substring(n)] *)
Definition substring (n : nat) (s : jsstring) : jsstring := drop n s.

(** The first occurrence of [pat] in [s]: what precedes it and what
    follows it. *)
Fixpoint split_first (pat s : jsstring) : option (jsstring * jsstring) :=
  if starts_with pat s then Some ([], drop (length pat) s)
  else match s with
       | [] => None
       | c :: s' =>
           match split_first pat s' with
           | Some (before, after) => Some (c :: before, after)
           | None => None
           end
       end.

Definition DOLLAR : N := 36.
Definition AMPERSAND : N := 38.
Definition BACKTICK : N := 96.
Definition QUOTE : N := 39.
Definition DQUOTE : N := 34.
Definition DOT : N := 46.
Definition DASH : N := 45.

(** GetSubstitution for a string pattern: there are no captures, so of
    the dollar forms only [$$], [$&], [$`] and [$'] are special; every
    other character, a dollar followed by a digit or by [<] included, is
    copied. *)
Fixpoint getSubstitution (matched before after tpl : jsstring) : jsstring :=
  match tpl with
  | [] => []
  | c :: t =>
      if c =? DOLLAR then
        match t with
        | [] => [c]
        | d :: t' =>
            if d =? DOLLAR then DOLLAR :: getSubstitution matched before after t'
            else if d =? AMPERSAND then matched ++ getSubstitution matched before after t'
            else if d =? BACKTICK then before ++ getSubstitution matched before after t'
            else if d =? QUOTE then after ++ getSubstitution matched before after t'
            else c :: getSubstitution matched before after t
        end
      else c :: getSubstitution matched before after t
  end.

(** [s.replace(pat, tpl)] with a string pattern: the first occurrence
    only. *)
Definition replace (s pat tpl : jsstring) : jsstring :=
  match split_first pat s with
  | None => s
  | Some (before, after) => before ++ getSubstitution pat before after tpl ++ after
  end.

(** [s.replaceAll(pat, tpl)] with a string pattern: every occurrence,
    left to right, the search resuming after the previous match (one
    unit further for the empty pattern).  [before] is the part of the
    string already passed, [skip] the number of units of the current
    match still to be consumed. *)
Fixpoint replaceAll_from (pat tpl before : jsstring) (skip : nat) (s : jsstring)
  : jsstring :=
  match s with
  | [] =>
      match skip, pat with
      | O, [] => getSubstitution pat before [] tpl
      | _, _ => []
      end
  | c :: s' =>
      match skip with
      | S k => replaceAll_from pat tpl (before ++ [c]) k s'
      | O =>
          if starts_with pat s then
            getSubstitution pat before (drop (length pat) s) tpl ++
            match pat with
            | [] => c :: replaceAll_from pat tpl (before ++ [c]) 0 s'
            | _ :: pat' => replaceAll_from pat tpl (before ++ [c]) (length pat') s'
            end
          else c :: replaceAll_from pat tpl (before ++ [c]) 0 s'
      end
  end.

Definition replaceAll (s pat tpl : jsstring) : jsstring :=
  replaceAll_from pat tpl [] 0 s.

(** White space and line terminators, the code units [trim] strips. *)
Definition isWhiteSpace (c : N) : bool :=
  (c =? 9) || (c =? 10) || (c =? 11) || (c =? 12) || (c =? 13) || (c =? 32)
  || (c =? 160) || (c =? 5760) || ((8192 <=? c) && (c <=? 8202))
  || (c =? 8232) || (c =? 8233) || (c =? 8239) || (c =? 8287)
  || (c =? 12288) || (c =? 65279).

Fixpoint trimStart (s : jsstring) : jsstring :=
  match s with
  | [] => []
  | c :: s' => if isWhiteSpace c then trimStart s' else s
  end.

Definition trimEnd (s : jsstring) : jsstring := rev (trimStart (rev s)).

(** [s.trim()] *)
Definition trim (s : jsstring) : jsstring := trimEnd (trimStart s).

(** *** [path.extname] (POSIX)

    The loop of the runtime's [extname], from the last code unit to the
    first. *)
Definition CHAR_FORWARD_SLASH : N := 47.
Definition CHAR_DOT : N := 46.

Record ext_state := {
  startDot : Z;
  startPart : Z;
  endIdx : Z;
  matchedSlash : bool;
  preDotState : Z
}.

Definition ext_init : ext_state :=
  {| startDot := -1; startPart := 0; endIdx := -1;
     matchedSlash := true; preDotState := 0 |}.

(** [extname_loop path k st] runs the iterations [i = k-1, ..., 0]. *)
Fixpoint extname_loop (path : jsstring) (k : nat) (st : ext_state) : ext_state :=
  match k with
  | O => st
  | S i =>
      let code := nth i path 0 in
      if code =? CHAR_FORWARD_SLASH then
        if negb (matchedSlash st) then
          (* break *)
          {| startDot := startDot st; startPart := Z.of_nat i + 1;
             endIdx := endIdx st; matchedSlash := matchedSlash st;
             preDotState := preDotState st |}
        else extname_loop path i st (* continue *)
      else
        let st1 :=
          if (endIdx st =? -1)%Z then
            {| startDot := startDot st; startPart := startPart st;
               endIdx := Z.of_nat i + 1; matchedSlash := false;
               preDotState := preDotState st |}
          else st in
        let st2 :=
          if code =? CHAR_DOT then
            if (startDot st1 =? -1)%Z then
              {| startDot := Z.of_nat i; startPart := startPart st1;
                 endIdx := endIdx st1; matchedSlash := matchedSlash st1;
                 preDotState := preDotState st1 |}
            else if negb (preDotState st1 =? 1)%Z then
              {| startDot := startDot st1; startPart := startPart st1;
                 endIdx := endIdx st1; matchedSlash := matchedSlash st1;
                 preDotState := 1 |}
            else st1
          else if negb (startDot st1 =? -1)%Z then
            {| startDot := startDot st1; startPart := startPart st1;
               endIdx := endIdx st1; matchedSlash := matchedSlash st1;
               preDotState := -1 |}
          else st1 in
        extname_loop path i st2
  end.

Definition slice (s : jsstring) (from to : Z) : jsstring :=
  take (Z.to_nat to - Z.to_nat from) (drop (Z.to_nat from) s).

Definition extname (path : jsstring) : jsstring :=
  let st := extname_loop path (length path) ext_init in
  if (startDot st =? -1)%Z || (endIdx st =? -1)%Z || (preDotState st =? 0)%Z
     || ((preDotState st =? 1)%Z && (startDot st =? endIdx st - 1)%Z
         && (startDot st =? startPart st + 1)%Z)
  then []
  else slice path (startDot st) (endIdx st).

End JS.

Import JS.

(** ** The script *)

Module Script.

(** What yargs hands over as [argv.f]: nothing, a string, or a value of
    another type (a boolean for a bare [-f], a number for a numeric
    argument, an array for a repeated flag).  Of a value of another type
    the script sees its truthiness and its rendering in a template
    literal. *)
Inductive argval :=
| Undefined
| Str (s : jsstring)
| Other (truth : bool) (text : jsstring).

Definition truthy (v : argval) : bool :=
  match v with
  | Undefined => false
  | Str s => negb (eqb s [])
  | Other t _ => t
  end.

Definition toString (v : argval) : jsstring :=
  match v with
  | Undefined => js "undefined"
  | Str s => s
  | Other _ text => text
  end.

(** An error is named by its code or message. *)
Definition error := jsstring.

(** What a run does that can be seen from outside, in order. *)
Inductive event :=
| console_info (msg : jsstring)
| console_error (msg : jsstring)
| ev_makeDir (dir : jsstring)
| ev_exec (cmd : jsstring)
| ev_npmAddScript (key value : jsstring)
| ev_copyFile (src dest : jsstring)
| ev_rename (oldPath newPath : jsstring)
| ev_moveFile (src dest : jsstring).

#[export] Instance event_eq_dec : EqDecision event.
Proof. solve_decision. Defined.

(** The outside world.  [existsSync] and the line reader only read;
    every other operation may change the world and may fail. *)
Class Runtime (World : Type) := {
  existsSync : World -> jsstring -> bool;
  readLines : World -> jsstring -> error + list jsstring;
  makeDir : jsstring -> World -> World * option error;
  exec : jsstring -> World -> World * option error;
  npmAddScript : jsstring -> jsstring -> World -> World * option error;
  copyFile : jsstring -> jsstring -> World -> World * option error;
  rename : jsstring -> jsstring -> World -> World * option error;
  moveFile : jsstring -> jsstring -> World -> World * option error
}.

(** How a piece of the function ends: it goes on with a value, it
    executes [return], or it throws (a rejected [await] included). *)
Inductive completion (A : Type) :=
| Normal (a : A)
| Return
| Throw (e : error).
Arguments Normal {A} a.
Arguments Return {A}.
Arguments Throw {A} e.

Section WithRuntime.
Context {World : Type} `{Runtime World}.

Record state := { world : World; trace : list event }.

Definition M (A : Type) : Type := state -> state * completion A.

Definition ret {A} (a : A) : M A := fun st => (st, Normal a).

Definition bind {A B} (m : M A) (k : A -> M B) : M B :=
  fun st =>
    match m st with
    | (st', Normal a) => k a st'
    | (st', Return) => (st', Return)
    | (st', Throw e) => (st', Throw e)
    end.

Definition return_ {A} : M A := fun st => (st, Return).
Definition throw {A} (e : error) : M A := fun st => (st, Throw e).

Definition emit (e : event) : M unit :=
  fun st => ({| world := world st; trace := trace st ++ [e] |}, Normal tt).

(** An operation on the world: it is recorded, then it succeeds or
    throws. *)
Definition call (e : event) (op : World -> World * option error) : M unit :=
  fun st =>
    let (w', r) := op (world st) in
    ({| world := w'; trace := trace st ++ [e] |},
     match r with None => Normal tt | Some err => Throw err end).

Definition when (b : bool) (m : M unit) : M unit := if b then m else ret tt.

(** The state a run starts in, and a state with more events. *)
Definition start_state (w : World) : state := {| world := w; trace := [] |}.

Definition log (st : state) (evs : list event) : state :=
  {| world := world st; trace := trace st ++ evs |}.

Notation "x <- m ;; k" := (bind m (fun x => k))
  (at level 100, m at next level, right associativity).
Notation "m ;; k" := (bind m (fun _ => k))
  (at level 100, right associativity).

Definition info (msg : jsstring) : M unit := emit (console_info msg).
Definition err (msg : jsstring) : M unit := emit (console_error msg).

(** [fs.existsSync]: false for a path that is not a string. *)
Definition fs_existsSync (p : argval) : M bool :=
  fun st =>
    (st, Normal (match p with Str s => existsSync (world st) s | _ => false end)).

(** [path.extname]: a type error for a path that is not a string. *)
Definition path_extname (p : argval) : M jsstring :=
  match p with
  | Str s => ret (extname s)
  | _ => throw (js "ERR_INVALID_ARG_TYPE")
  end.

(** [Promise.all] of an array of calls: every operation is started, in
    the order of the array, before any is awaited; the result is normal
    when all are.  When several are rejected the runtime reports the one
    that settles first; the first of the array stands for it here, and
    no statement below says which one is reported, or what the others
    have done by then. *)
Fixpoint promise_all (ps : list (M unit)) : M unit :=
  match ps with
  | [] => ret tt
  | p :: ps' =>
      fun st =>
        let (st1, r1) := p st in
        let (st2, r2) := promise_all ps' st1 in
        (st2, match r1 with Normal _ => r2 | _ => r1 end)
  end.

(** [lineReader.eachLine], promisified: the callback is applied to the
    lines in order until it answers [false].  [acc] is the variable the
    callback assigns. *)
Fixpoint eachLine {S} (lines : list jsstring)
    (cb : jsstring -> S -> M (S * bool)) (acc : S) : M S :=
  match lines with
  | [] => ret acc
  | line :: rest =>
      r <- cb line acc ;;
      if snd r then eachLine rest cb (fst r) else ret (fst r)
  end.

Definition readLinesAsync {S} (fileName : jsstring)
    (cb : jsstring -> S -> M (S * bool)) (acc : S) : M S :=
  fun st =>
    match readLines (world st) fileName with
    | inl e => (st, Throw e)
    | inr lines => eachLine lines cb acc st
    end.

(** The messages of the function. *)
Definition msg_start : jsstring := js "Starting OpenAPI Stub Generation...".
Definition msg_getting : jsstring := js "Getting Version Number...".
Definition msg_found (versionNumber : jsstring) : jsstring :=
  js "Version Number Found: " ++ versionNumber.

Definition msg_moving : jsstring := js "Moving / Copying Files...".

Definition msg_no_file : jsstring :=
  js "No file was passed in. Please pass in an OpenAPI file with the '-f' flag.".

Definition msg_invalid_file (fileName : jsstring) : jsstring :=
  js "Invalid file was passed in. Could not find " ++ fileName
    ++ js ". Please pass in an OpenAPI file with the '-f' flag.".

Definition msg_filetype (extension : jsstring) : jsstring :=
  js "Filetype " ++ extension
    ++ js " is not a valid OpenAPI file type. Please pass in an OpenAPI file with the '-f' flag.".

Definition msg_no_version : jsstring := js "No version number found. Aborting!".

Definition msg_exists (versionNumber : jsstring) : jsstring :=
  js "Version " ++ versionNumber
    ++ js " already exists. Please update your OpenAPI file's version number and try again.".

Definition openApiExtensions : gset jsstring :=
  {[ js "yaml"; js "yml"; js "json" ]}.

(** The right-hand side of the assignment to [versionNumber]. *)
Definition versionNumberOf (line : jsstring) : jsstring :=
  js "v" ++
  trim (replaceAll (replaceAll (replace line (js "version:") (js ""))
                               (js "'") (js ""))
                   (js ".") (js "-")).

(** The callback given to the line reader; [true] stands for the
    callback falling off its end, which lets the reader go on. *)
Definition onLine (line : jsstring) (versionNumber : jsstring)
  : M (jsstring * bool) :=
  if includes line (js "version") then
    let versionNumber := versionNumberOf line in
    info (msg_found versionNumber) ;;
    ret (versionNumber, false)
  else ret (versionNumber, true).


(** A double quote inside a command. *)
Definition dq : jsstring := [DQUOTE].

(** The arguments of the calls of [npmAddScript], in the order of the
    source. *)
Definition npmScripts (fileNameWithVersion fileNameWithVersionNoExtension : jsstring)
  : list (jsstring * jsstring) :=
  [ (js "make:swagger", js "make-dir swagger-stub");
    (js "generate:swagger",
     js "npm run delete:swagger && npm run make:swagger && openapi-generator-cli generate -i open-api/"
       ++ fileNameWithVersion
       ++ js " -g nodejs-express-server -o swagger-stub --additional-properties=serverPort=9999");
    (js "delete:swagger", js "rimraf swagger-stub");

    (js "make:docs", js "make-dir html-docs");
    (js "delete:docs", js "rimraf html-docs");
    (js "generate:docs",
     js "npm run delete:docs && npm run make:docs && openapi-generator-cli generate -i open-api/"
       ++ fileNameWithVersion ++ js " -g html2 -o html-docs");

    (js "make:markdown", js "make-dir markdown-docs");
    (js "generate:markdown",
     js "npm run delete:markdown && npm run make:markdown && widdershins open-api/"
       ++ fileNameWithVersion ++ js " -o markdown-docs/"
       ++ fileNameWithVersionNoExtension
       ++ js "_dirty.md --omitHeader --expandBody --language_tabs 'javascript:JavaScript' && npm run markdown:prepare");
    (js "delete:markdown", js "rimraf markdown-docs");

    (js "markdown:tidy",
     js "tidy-markdown < ./markdown-docs/" ++ fileNameWithVersionNoExtension
       ++ js "_dirty.md > ./markdown-docs/" ++ fileNameWithVersionNoExtension
       ++ js ".md");
    (js "markdown:remove-comments",
     js "replace-in-files --string=" ++ dq ++ js "<!-- backwards compatibility -->"
       ++ dq ++ js " " ++ dq ++ js "<!-- Generator: Widdershins v4.0.1 -->" ++ dq
       ++ js " --replacement='' ./markdown-docs/"
       ++ fileNameWithVersionNoExtension ++ js ".md");
    (js "markdown:remove-empty-links",
     js "replace-in-files --string=" ++ dq ++ js "[]()" ++ dq
       ++ js " --replacement='' markdown-docs/"
       ++ fileNameWithVersionNoExtension ++ js ".md");
    (js "markdown:remove-aside",
     js "replace-in-files --string=" ++ dq ++ js "</aside>" ++ dq
       ++ js " --replacement='**' markdown-docs/"
       ++ fileNameWithVersionNoExtension ++ js ".md");
    (js "markdown:replace-warnings",
     js "replace-in-files --regex=" ++ dq ++ js "<aside[^>]*>" ++ dq
       ++ js " --replacement='**' markdown-docs/"
       ++ fileNameWithVersionNoExtension ++ js ".md");
    (js "markdown:remove-dirty",
     js "rimraf markdown-docs/" ++ fileNameWithVersionNoExtension ++ js "_dirty.md");
    (js "markdown:prepare",
     js "npm run markdown:tidy && npm run markdown:remove-comments && npm run markdown:remove-empty-links && npm run markdown:remove-aside && npm run markdown:replace-warnings && npm run markdown:remove-dirty");

    (js "generate",
     js "npm run generate:swagger && npm run generate:docs && npm run generate:markdown");
    (js "start:swagger", js "cd swagger-stub && npm start");
    (js "start:prism", js "prism mock open-api/" ++ fileNameWithVersion);
    (js "start:browser",
     js "wait-on http://localhost:9999/api-docs && start http://localhost:9999/api-docs"
       ++ dq);
    (js "start",
     js "concurrently -n swagger,prism,browser " ++ dq ++ js "npm run start:swagger"
       ++ dq ++ js " " ++ dq ++ js "npm run start:prism" ++ dq ++ js " " ++ dq
       ++ js "npm run start:browser" ++ dq) ].

(** The calls of [npmAddScript] one after the other; the first one that
    throws ends the run. *)
Fixpoint addScripts (l : list (jsstring * jsstring)) : M unit :=
  match l with
  | [] => ret tt
  | (key, value) :: l' =>
      call (ev_npmAddScript key value) (npmAddScript key value) ;;
      addScripts l'
  end.

Definition run_exec (cmd : jsstring) : M unit := call (ev_exec cmd) (exec cmd).
Definition run_makeDir (dir : jsstring) : M unit := call (ev_makeDir dir) (makeDir dir).

(** "Making Directories..." to the last [npmAddScript]. *)
Definition scaffold (versionNumber fileNameWithVersion
                     fileNameWithVersionNoExtension : jsstring) : M unit :=
  info (js "Making Directories...") ;;
  promise_all
    [ run_makeDir (js "api-spec/" ++ versionNumber ++ js "/open-api");
      run_makeDir (js "api-spec/" ++ versionNumber ++ js "/swagger-stub");
      run_makeDir (js "api-spec/" ++ versionNumber ++ js "/html-docs") ] ;;
  run_exec (js "npm init -y") ;;
  info (js "Adding NPM Scripts...") ;;
  addScripts (npmScripts fileNameWithVersion fileNameWithVersionNoExtension).

(** "Moving / Copying Files...": copy, rename, move. *)
Definition relocate (fileName versionNumber fileNameWithVersion : jsstring)
  : M unit :=
  info msg_moving ;;
  (let dest := js "api-spec/" ++ versionNumber ++ js "/open-api/" ++ fileName in
   call (ev_copyFile fileName dest) (copyFile fileName dest)) ;;
  (let oldPath := js "api-spec/" ++ versionNumber ++ js "/ozpen-api/" ++ fileName in
   let newPath :=
     js "api-spec/" ++ versionNumber ++ js "/open-api/" ++ fileNameWithVersion in
   call (ev_rename oldPath newPath) (rename oldPath newPath)) ;;
  (let dest := js "api-spec/" ++ versionNumber ++ js "/package.json" in
   call (ev_moveFile (js "package.json") dest) (moveFile (js "package.json") dest)).

(** "Installing NPM Modules..." to the end. *)
Definition installAndGenerate (versionNumber : jsstring) : M unit :=
  info (js "Installing NPM Modules. Please Wait...") ;;
  run_exec (js "npm --prefix api-spec/" ++ versionNumber
            ++ js " i @openapitools/openapi-generator-cli@2.2.8 @stoplight/prism-cli@4.2.3 concurrently@6.1.0 rimraf@3.0.2 make-dir-cli@3.0.0 wait-on@5.3.0 replace-in-files-cli@1.0.0 tidy-markdown@2.0.3 widdershins@4.0.1") ;;
  info (js "Generating Server Stub. Please Wait...") ;;
  run_exec (js "npm --prefix api-spec/" ++ versionNumber ++ js " run generate:swagger") ;;
  info (js "Generating HTML Documentation. Please Wait...") ;;
  run_exec (js "npm --prefix api-spec/" ++ versionNumber ++ js " run generate:docs") ;;
  info (js "Generating Markdown Documentation. Please Wait...") ;;
  run_exec (js "npm --prefix api-spec/" ++ versionNumber ++ js " run generate:markdown") ;;
  info (js "Cleaning Up...") ;;
  call (ev_moveFile (js "openapitools.json") (js "api-spec/openapitools.json"))
       (moveFile (js "openapitools.json") (js "api-spec/openapitools.json")) ;;
  info (js "Stub Generation Complete!" ++ [10] ++ js " Run 'npm --prefix api-spec/"
        ++ versionNumber
        ++ js " start' to start the API mocking and Swagger documentation servers."
        ++ [10]).

(** The function from the two derived file names on, once the version
    number is known. *)
Definition generate (fileName extension versionNumber : jsstring) : M unit :=
  let fileNameWithVersion :=
    replace fileName extension (js "-" ++ versionNumber ++ extension) in
  let fileNameWithVersionNoExtension :=
    replace fileNameWithVersion extension (js "") in
  found <- fs_existsSync (Str fileName) ;;
  when (negb found) (err (msg_invalid_file fileName) ;; return_) ;;
  taken <- fs_existsSync (Str (js "./api-spec/" ++ versionNumber)) ;;
  when taken (err (msg_exists versionNumber) ;; return_) ;;
  scaffold versionNumber fileNameWithVersion fileNameWithVersionNoExtension ;;
  relocate fileName versionNumber fileNameWithVersion ;;
  installAndGenerate versionNumber.

(** The whole function.  Past [path.extname] the value of [fileName] is
    a string. *)
Definition main (argv_f : argval) : M unit :=
  info msg_start ;;
  when (negb (truthy argv_f)) (err msg_no_file ;; return_) ;;
  let fileName := argv_f in
  found <- fs_existsSync fileName ;;
  when (negb found) (err (msg_invalid_file (toString fileName)) ;; return_) ;;
  extension <- path_extname fileName ;;
  when (negb (bool_decide (substring 1 extension ∈ openApiExtensions)))
       (err (msg_filetype extension) ;; return_) ;;
  info msg_getting ;;
  versionNumber <- readLinesAsync (toString fileName) onLine (js "0") ;;
  when (eqb versionNumber (js "0")) (err msg_no_version ;; return_) ;;
  generate (toString fileName) extension versionNumber.

(** How the promise of the function settles. *)
Inductive outcome := Fulfilled | Rejected (e : error).

Record result := { final : World; events : list event; settled : outcome }.

Definition run (w : World) (argv_f : argval) : result :=
  let (st, c) := main argv_f {| world := w; trace := [] |} in
  {| final := world st; events := trace st;
     settled := match c with Throw e => Rejected e | _ => Fulfilled end |}.

End WithRuntime.

Arguments versionNumberOf : simpl never.
Arguments npmScripts : simpl never.

Notation "x <- m ;; k" := (bind m (fun x => k))
  (at level 100, m at next level, right associativity).
Notation "m ;; k" := (bind m (fun _ => k))
  (at level 100, right associativity).

End Script.

(** ** A file system to run the script on

    Regular files, directories and the package manifest, under absolute
    paths given by their components; no symbolic links, no permissions,
    a name of at most 255 bytes, no limit on the length of a whole path.
    The operations follow what the runtime and the packages document:
    [fs.existsSync], [fs.promises.copyFile] and [fs.promises.rename] of
    the runtime, [mkdir -p] for make-dir, make-the-directory-then-rename
    for move-file, add-unless-set for npm-add-script, and the line
    reader's cutting of a file into lines.  The manifest is kept as its
    registry of scripts, not as text: a [Manifest] node is a
    [package.json] that parses, a [File] node at that place is one that
    does not, and the line reader is not defined on a manifest.  The
    sub-processes other than [npm init -y] are not simulated: they leave
    the file system as it is. *)

Module Sim.
Import Script.

Inductive node :=
| Dir
| File (data : jsstring)
| Manifest (scripts : list (jsstring * jsstring)).

Record fs := { cwd : list jsstring; nodes : gmap (list jsstring) node }.

Definition ENOENT : error := js "ENOENT".
Definition ENOTDIR : error := js "ENOTDIR".
Definition EISDIR : error := js "EISDIR".
Definition EEXIST : error := js "EEXIST".
Definition ENAMETOOLONG : error := js "ENAMETOOLONG".

(** The components of a path, empty ones included. *)
Fixpoint split_slash (s : jsstring) : list jsstring :=
  match s with
  | [] => [[]]
  | c :: s' =>
      if c =? CHAR_FORWARD_SLASH then [] :: split_slash s'
      else match split_slash s' with
           | comp :: rest => (c :: comp) :: rest
           | [] => [[c]]
           end
  end.

Definition is_dir (m : gmap (list jsstring) node) (p : list jsstring) : bool :=
  match p with
  | [] => true
  | _ => match m !! p with Some Dir => true | _ => false end
  end.

Definition same_dir (c : jsstring) : bool := eqb c [] || eqb c (js ".").
Definition up_dir (c : jsstring) : bool := eqb c (js "..").

(** The bytes of a name in UTF-8, in which a path goes to the system: a
    surrogate pair is one character of four bytes, a surrogate alone is
    written as U+FFFD. *)
Definition is_high_surrogate (c : N) : bool := (55296 <=? c) && (c <=? 56319).
Definition is_low_surrogate (c : N) : bool := (56320 <=? c) && (c <=? 57343).

Fixpoint utf8_length (s : jsstring) : N :=
  match s with
  | [] => 0
  | c :: s' =>
      if c <? 128 then 1 + utf8_length s'
      else if c <? 2048 then 2 + utf8_length s'
      else if is_high_surrogate c then
        match s' with
        | d :: s'' =>
            if is_low_surrogate d then 4 + utf8_length s'' else 3 + utf8_length s'
        | [] => 3
        end
      else 3 + utf8_length s'
  end.

Definition NAME_MAX : N := 255.
Definition too_long (c : jsstring) : bool := NAME_MAX <? utf8_length c.

(** What a look-up below [cur] fails with when [cur] is no directory. *)
Definition missing (m : gmap (list jsstring) node) (cur : list jsstring) : error :=
  match m !! cur with Some _ => ENOTDIR | None => ENOENT end.

(** Path resolution: every component is looked up in a directory. *)
Fixpoint walk (m : gmap (list jsstring) node) (cur : list jsstring)
    (comps : list jsstring) : error + list jsstring :=
  match comps with
  | [] => inr cur
  | c :: rest =>
      if is_dir m cur then
        if same_dir c then walk m cur rest
        else if up_dir c then walk m (removelast cur) rest
        else if too_long c then inl ENAMETOOLONG
        else walk m (cur ++ [c]) rest
      else inl (missing m cur)
  end.

Definition origin (f : fs) (p : jsstring) : list jsstring :=
  match p with
  | c :: _ => if c =? CHAR_FORWARD_SLASH then [] else cwd f
  | [] => cwd f
  end.

Definition lookup_path (f : fs) (p : jsstring) : error + list jsstring * node :=
  match p with
  | [] => inl ENOENT
  | _ =>
      match walk (nodes f) (origin f p) (split_slash p) with
      | inr [] => inr ([], Dir)
      | inr k => match nodes f !! k with Some n => inr (k, n) | None => inl ENOENT end
      | inl e => inl e
      end
  end.

(** The place a path names for a file to be created or replaced: its
    directory has to exist, and a path that ends in a separator or in a
    dot name is the path of a directory. *)
Definition target_path (f : fs) (p : jsstring) : error + list jsstring :=
  let comps := split_slash p in
  let name := List.last comps [] in
  match p with
  | [] => inl ENOENT
  | _ =>
      match walk (nodes f) (origin f p) (removelast comps) with
      | inr d =>
          if negb (is_dir (nodes f) d) then inl (missing (nodes f) d)
          else if same_dir name || up_dir name then inl EISDIR
          else if too_long name then inl ENAMETOOLONG
          else inr (d ++ [name])
      | inl e => inl e
      end
  end.

(** Lines as the line reader cuts them: at LF, CR LF or CR; what follows
    the last separator is a line unless it is empty. *)
Fixpoint split_lines (s : jsstring) : list jsstring :=
  match s with
  | [] => [[]]
  | c :: s' =>
      if c =? 10 then [] :: split_lines s'
      else if c =? 13 then
        match s' with
        | d :: s'' => if d =? 10 then [] :: split_lines s'' else [] :: split_lines s'
        | [] => [] :: split_lines s'
        end
      else match split_lines s' with
           | l :: ls => (c :: l) :: ls
           | [] => [[c]]
           end
  end.

Definition lines_of (data : jsstring) : list jsstring :=
  let pieces := split_lines data in
  if eqb (List.last pieces []) [] then removelast pieces else pieces.

Definition sim_existsSync (f : fs) (p : jsstring) : bool :=
  match lookup_path f p with inr _ => true | inl _ => false end.

Definition sim_readLines (f : fs) (p : jsstring) : error + list jsstring :=
  match lookup_path f p with
  | inr (_, File data) => inr (lines_of data)
  | inr (_, Dir) => inl EISDIR
  | inr (_, Manifest _) => inl (js "manifest read as text")
  | inl e => inl e
  end.

Definition with_nodes (f : fs) (m : gmap (list jsstring) node) : fs :=
  {| cwd := cwd f; nodes := m |}.

(** [mkdir -p]: the directories that are missing are made from the top;
    a regular file in the way is [ENOTDIR], and [EEXIST] where it has the
    name of the last directory. *)
Fixpoint mkdirp (m : gmap (list jsstring) node) (cur : list jsstring)
    (comps : list jsstring) : gmap (list jsstring) node * option error :=
  match comps with
  | [] => (m, None)
  | c :: rest =>
      if is_dir m cur then
        if same_dir c then mkdirp m cur rest
        else if up_dir c then mkdirp m (removelast cur) rest
        else if too_long c then (m, Some ENAMETOOLONG)
        else
          let p := cur ++ [c] in
          match m !! p with
          | None => mkdirp (<[p := Dir]> m) p rest
          | Some Dir => mkdirp m p rest
          | Some _ => (m, Some (match rest with [] => EEXIST | _ => ENOTDIR end))
          end
      else (m, Some (missing m cur))
  end.

Definition sim_makeDir (p : jsstring) (f : fs) : fs * option error :=
  let (m, r) := mkdirp (nodes f) (origin f p) (split_slash p) in
  (with_nodes f m, r).

Definition default_scripts : list (jsstring * jsstring) :=
  [ (js "test", js "echo " ++ dq ++ js "Error: no test specified" ++ dq
                  ++ js " && exit 1") ].

(** The registry of scripts is an object: [scripts[key]] and
    [scripts[key] = value], which keeps the place of a key that is there
    and puts a new one last. *)
Fixpoint get_script (key : jsstring) (scripts : list (jsstring * jsstring))
  : option jsstring :=
  match scripts with
  | [] => None
  | (k, value) :: rest => if eqb k key then Some value else get_script key rest
  end.

Fixpoint set_script (key value : jsstring) (scripts : list (jsstring * jsstring))
  : list (jsstring * jsstring) :=
  match scripts with
  | [] => [(key, value)]
  | (k, v) :: rest =>
      if eqb k key then (key, value) :: rest else (k, v) :: set_script key value rest
  end.

(** A script that is set: its value is a string that is not empty. *)
Definition is_set (key : jsstring) (scripts : list (jsstring * jsstring)) : bool :=
  match get_script key scripts with
  | Some (_ :: _) => true
  | _ => false
  end.

(** [npm init -y] writes the manifest in the working directory; in one
    that is there it keeps the scripts and fills in the [test] script
    where none is set.  The other commands are not simulated. *)
Definition sim_exec (cmd : jsstring) (f : fs) : fs * option error :=
  if eqb cmd (js "npm init -y") then
    let k := cwd f ++ [js "package.json"] in
    match nodes f !! k with
    | None => (with_nodes f (<[k := Manifest default_scripts]> (nodes f)), None)
    | Some (Manifest scripts) =>
        if is_set (js "test") scripts then (f, None)
        else
          let test := snd (List.hd (js "test", []) default_scripts) in
          (with_nodes f (<[k := Manifest (set_script (js "test") test scripts)]> (nodes f)),
           None)
    | Some _ => (f, Some (js "EJSONPARSE"))
    end
  else (f, None).

(** npm-add-script: the manifest of the working directory gets the
    script; an empty key or value and a key that is set are refused. *)
Definition sim_npmAddScript (key value : jsstring) (f : fs) : fs * option error :=
  if eqb key [] || eqb value [] then (f, Some (js "missing key or value"))
  else
    let k := cwd f ++ [js "package.json"] in
    match nodes f !! k with
    | Some (Manifest scripts) =>
        if is_set key scripts then (f, Some (js "script already exists"))
        else (with_nodes f (<[k := Manifest (set_script key value scripts)]> (nodes f)), None)
    | Some _ => (f, Some (js "EJSONPARSE"))
    | None => (f, Some ENOENT)
    end.

Definition sim_copyFile (src dest : jsstring) (f : fs) : fs * option error :=
  match lookup_path f src with
  | inl e => (f, Some e)
  | inr (_, Dir) => (f, Some EISDIR)
  | inr (_, n) =>
      match target_path f dest with
      | inl e => (f, Some e)
      | inr k =>
          if is_dir (nodes f) k then (f, Some EISDIR)
          else (with_nodes f (<[k := n]> (nodes f)), None)
      end
  end.

(** Moving a node moves what is below it. *)
Definition rekey (old new k : list jsstring) : list jsstring :=
  if bool_decide (take (length old) k = old) then new ++ drop (length old) k else k.

Definition move_node (old new : list jsstring) (m : gmap (list jsstring) node)
  : gmap (list jsstring) node :=
  list_to_map (List.map (fun kv => (rekey old new (fst kv), snd kv)) (map_to_list m)).

Definition below (p k : list jsstring) : bool :=
  bool_decide (take (length p) k = p) && negb (bool_decide (k = p)).

Definition has_entries (m : gmap (list jsstring) node) (p : list jsstring) : bool :=
  existsb (fun kv => below p (fst kv)) (map_to_list m).

Definition sim_rename (oldPath newPath : jsstring) (f : fs) : fs * option error :=
  match lookup_path f oldPath with
  | inl e => (f, Some e)
  | inr ([], _) => (f, Some (js "EBUSY"))
  | inr (old, n) =>
      match target_path f newPath with
      | inl e => (f, Some e)
      | inr new =>
          match n, nodes f !! new with
          | Dir, Some (File _ | Manifest _) => (f, Some ENOTDIR)
          | (File _ | Manifest _), Some Dir => (f, Some EISDIR)
          | _, _ =>
              if bool_decide (old = new) then (f, None)
              else if below old new then (f, Some (js "EINVAL"))
              else if has_entries (nodes f) new then (f, Some (js "ENOTEMPTY"))
              else (with_nodes f (move_node old new (delete new (nodes f))), None)
          end
      end
  end.

(** move-file: the directory of the destination is made, then the file
    is renamed. *)
Definition sim_moveFile (src dest : jsstring) (f : fs) : fs * option error :=
  let (m, r) := mkdirp (nodes f) (origin f dest) (removelast (split_slash dest)) in
  match r with
  | Some e => (with_nodes f m, Some e)
  | None => sim_rename src dest (with_nodes f m)
  end.

#[export] Instance sim_runtime : Runtime fs := {
  existsSync := sim_existsSync;
  readLines := sim_readLines;
  makeDir := sim_makeDir;
  exec := sim_exec;
  npmAddScript := sim_npmAddScript;
  copyFile := sim_copyFile;
  rename := sim_rename;
  moveFile := sim_moveFile
}.

(** A working directory [/work] that holds one file. *)
Definition one_file (name data : jsstring) : fs :=
  {| cwd := [js "work"];
     nodes := <[ [js "work"; name] := File data ]> {[ [js "work"] := Dir ]} |}.

Definition LF : jsstring := [10].

(** The scenario of the specification: [spec.yaml] with the version
    2.0.0, alone in the working directory. *)
Definition spec_yaml : jsstring :=
  js "openapi: 3.0.0" ++ LF ++ js "info:" ++ LF ++ js "  version: 2.0.0" ++ LF
    ++ js "  title: Pets" ++ LF.

Definition world_spec : fs := one_file (js "spec.yaml") spec_yaml.

(** The same with the version directory already there. *)
Definition world_taken : fs :=
  with_nodes world_spec
    (<[ [js "work"; js "api-spec"; js "v2-0-0"] := Dir ]>
       (<[ [js "work"; js "api-spec"] := Dir ]> (nodes world_spec))).

(** A file whose version line is exactly [version: '1.2.3']. *)
Definition world_quoted : fs :=
  one_file (js "api.yml")
    (js "openapi: 3.0.0" ++ LF ++ js "version: '1.2.3'" ++ LF ++ js "paths: {}" ++ LF).

(** A file whose version is in double quotes. *)
Definition line_double_quoted : jsstring :=
  js "  version: " ++ dq ++ js "1.2.3" ++ dq.

Definition world_double_quoted : fs :=
  one_file (js "spec.yaml")
    (js "info:" ++ LF ++ line_double_quoted ++ LF ++ js "  title: Pets" ++ LF).

(** A file without the word. *)
Definition world_unversioned : fs :=
  one_file (js "spec.json") (js "{" ++ LF ++ js "  'paths': {}" ++ LF ++ js "}" ++ LF).

(** A file in a directory whose name holds the extension. *)
Definition world_nested : fs :=
  {| cwd := [js "work"];
     nodes := <[ [js "work"; js "a.yaml"; js "b.yaml"] := File (js "version: 1" ++ LF) ]>
              (<[ [js "work"; js "a.yaml"] := Dir ]> {[ [js "work"] := Dir ]}) |}.

(** A file in an ordinary directory. *)
Definition world_in_dir : fs :=
  {| cwd := [js "work"];
     nodes := <[ [js "work"; js "specs"; js "api.yaml"] := File (js "version: 1" ++ LF) ]>
              (<[ [js "work"; js "specs"] := Dir ]> {[ [js "work"] := Dir ]}) |}.

(** A directory that has the name of a specification file. *)
Definition world_directory : fs :=
  {| cwd := [js "work"];
     nodes := <[ [js "work"; js "spec.yaml"] := Dir ]> {[ [js "work"] := Dir ]} |}.

(** [api-spec] is there as a regular file. *)
Definition world_blocked : fs :=
  with_nodes world_spec
    (<[ [js "work"; js "api-spec"] := File (js "notes") ]> (nodes world_spec)).

(** A file with an extension that is not accepted. *)
Definition world_notes : fs := one_file (js "notes.txt") (js "version: 1" ++ LF).

End Sim.


(** ** Notions of the specification *)

Module Spec.
Import Script.

(** The first line that contains the substring "version". *)
Fixpoint firstVersionLine (lines : list jsstring) : option jsstring :=
  match lines with
  | [] => None
  | line :: rest =>
      if includes line (js "version") then Some line else firstVersionLine rest
  end.

(** The version token as the specification words it: the key token
    removed, the quote characters removed, dots turned into dashes,
    white space trimmed, "v" in front. *)
Fixpoint remove_first (pat s : jsstring) : jsstring :=
  if starts_with pat s then drop (length pat) s
  else match s with
       | [] => []
       | c :: s' => c :: remove_first pat s'
       end.

Definition without (q : N -> bool) (s : jsstring) : jsstring :=
  List.filter (fun c => negb (q c)) s.

Definition is_single_quote (c : N) : bool := c =? QUOTE.
Definition is_quote (c : N) : bool := (c =? QUOTE) || (c =? DQUOTE).

Definition dots_to_dashes (s : jsstring) : jsstring :=
  List.map (fun c => if c =? DOT then DASH else c) s.

Definition spec_version_token (line : jsstring) : jsstring :=
  js "v" ++ trim (dots_to_dashes (without is_quote (remove_first (js "version:") line))).

(** The same with the single quote as the only quote character. *)
Definition version_token_single_quotes (line : jsstring) : jsstring :=
  js "v" ++
  trim (dots_to_dashes (without is_single_quote (remove_first (js "version:") line))).

(** Commands chained with the shell's logical AND. *)
Fixpoint and_chain (cmds : list jsstring) : jsstring :=
  match cmds with
  | [] => []
  | [cmd] => cmd
  | cmd :: rest => cmd ++ js " && " ++ and_chain rest
  end.

Definition chained_with_and (value : jsstring) : Prop :=
  exists cmds, (2 <= length cmds)%nat /\ value = and_chain cmds.

Definition npm_run (key : jsstring) : jsstring := js "npm run " ++ key.

(** The command of the script "start". *)
Definition start_command : jsstring :=
  js "concurrently -n swagger,prism,browser "
    ++ dq ++ npm_run (js "start:swagger") ++ dq ++ js " "
    ++ dq ++ npm_run (js "start:prism") ++ dq ++ js " "
    ++ dq ++ npm_run (js "start:browser") ++ dq.

(** The script keys the specification documents. *)
Definition documented_keys : list jsstring :=
  [ js "make:swagger"; js "generate:swagger"; js "delete:swagger";
    js "make:docs"; js "generate:docs"; js "delete:docs";
    js "make:markdown"; js "generate:markdown"; js "delete:markdown";
    js "generate"; js "start"; js "start:swagger"; js "start:prism";
    js "start:browser" ].

(** The scripts whose command names the specification file under
    [open-api/]. *)
Definition open_api_keys : list jsstring :=
  [ js "generate:swagger"; js "generate:docs"; js "generate:markdown";
    js "start:prism" ].

(** The three checks on [argv.f]: it is given, it names something that
    exists, and its extension is one of the three. *)
Definition passes_validation {World : Type} `{Runtime World}
    (w : World) (argv_f : argval) : bool :=
  truthy argv_f &&
  match argv_f with
  | Str s =>
      existsSync w s && bool_decide (substring 1 (extname s) ∈ openApiExtensions)
  | _ => false
  end.

(** What the function may do once the version number is known: the two
    errors of its guards, the scripts of [npmScripts], and the copy and
    the rename with these very paths. *)
Definition allowed (fileName extension versionNumber : jsstring) (e : event) : Prop :=
  let fileNameWithVersion :=
    replace fileName extension (js "-" ++ versionNumber ++ extension) in
  match e with
  | console_error msg =>
      msg = msg_invalid_file fileName \/ msg = msg_exists versionNumber
  | ev_npmAddScript key value =>
      In (key, value)
         (npmScripts fileNameWithVersion (replace fileNameWithVersion extension (js "")))
  | ev_copyFile src dest =>
      src = fileName
      /\ dest = js "api-spec/" ++ versionNumber ++ js "/open-api/" ++ fileName
  | ev_rename oldPath newPath =>
      oldPath = js "api-spec/" ++ versionNumber ++ js "/ozpen-api/" ++ fileName
      /\ newPath = js "api-spec/" ++ versionNumber ++ js "/open-api/"
                     ++ fileNameWithVersion
  | _ => True
  end.

(** A computation only adds events, all of them in [P]. *)
Definition appends {World : Type} (P : event -> Prop) {A} (m : @M World A) : Prop :=
  forall st, exists evs, trace (fst (m st)) = trace st ++ evs /\ Forall P evs.

(** The scripts a trace registers, in order. *)
Definition registered (evs : list event) : list (jsstring * jsstring) :=
  flat_map (fun e => match e with
                     | ev_npmAddScript key value => [(key, value)]
                     | _ => []
                     end) evs.

(** The command a list of scripts holds for a key. *)
Fixpoint script_of (key : jsstring) (l : list (jsstring * jsstring))
  : option jsstring :=
  match l with
  | [] => None
  | (k, value) :: l' => if eqb k key then Some value else script_of key l'
  end.

(** What the loop of [extname] keeps, with the indices from [k] on
    done: the end of the extension is past them and within the path,
    and a dot found is a dot of the path before that end. *)
Definition ext_inv (path : jsstring) (k : nat) (st : ext_state) : Prop :=
  (endIdx st = -1 \/ Z.of_nat k < endIdx st <= Z.of_nat (length path))%Z
  /\ ((startDot st = -1)%Z
      \/ (Z.of_nat k <= startDot st < endIdx st)%Z
         /\ nth (Z.to_nat (startDot st)) path 0 = CHAR_DOT).

(** An event that is an operation on the outside world, not a message
    on the console. *)
Definition is_operation (e : event) : bool :=
  match e with
  | console_info _ | console_error _ => false
  | _ => true
  end.

Definition msg_making : jsstring := js "Making Directories...".
Definition msg_adding : jsstring := js "Adding NPM Scripts...".

(** The three directories of a version. *)
Definition version_dirs (versionNumber : jsstring) : list jsstring :=
  [ js "api-spec/" ++ versionNumber ++ js "/open-api";
    js "api-spec/" ++ versionNumber ++ js "/swagger-stub";
    js "api-spec/" ++ versionNumber ++ js "/html-docs" ].

(** The events of a scaffolding step that completes. *)
Definition scaffold_events (versionNumber fnv fne : jsstring) : list event :=
  console_info msg_making
    :: List.map ev_makeDir (version_dirs versionNumber)
    ++ [ev_exec (js "npm init -y"); console_info msg_adding]
    ++ List.map (fun kv => ev_npmAddScript (fst kv) (snd kv)) (npmScripts fnv fne).

(** The diagnostic of an input that fails validation: the flag is
    looked at first, then the path, then the extension. *)
Definition diagnostic {World : Type} `{Runtime World}
    (w : World) (argv_f : argval) : jsstring :=
  if negb (truthy argv_f) then msg_no_file
  else match argv_f with
       | Str s =>
           if existsSync w s then msg_filetype (extname s) else msg_invalid_file s
       | _ => msg_invalid_file (toString argv_f)
       end.

(** Where the operations of a run on a version may point: the three
    directories, [npm init -y] and the npm commands on the version
    directory, and paths that begin with [api-spec/]. *)
Definition confined (versionNumber : jsstring) (e : event) : Prop :=
  match e with
  | ev_makeDir dir => In dir (version_dirs versionNumber)
  | ev_exec cmd =>
      cmd = js "npm init -y"
      \/ starts_with (js "npm --prefix api-spec/" ++ versionNumber ++ js " ") cmd = true
  | ev_copyFile _ dest =>
      starts_with (js "api-spec/" ++ versionNumber ++ js "/open-api/") dest = true
  | ev_rename oldPath newPath =>
      starts_with (js "api-spec/" ++ versionNumber ++ js "/") oldPath = true
      /\ starts_with (js "api-spec/" ++ versionNumber ++ js "/open-api/") newPath = true
  | ev_moveFile src dest =>
      In src [js "package.json"; js "openapitools.json"]
      /\ starts_with (js "api-spec/") dest = true
  | _ => True
  end.

End Spec.

Import Script Sim Spec.

(** ** Facts about the string operations *)

Example extname_spec_yaml : extname (js "spec.yaml") = js ".yaml".
Proof. reflexivity. Qed.

Example extname_hidden : extname (js "dir.d/.profile") = js "".
Proof. reflexivity. Qed.

Example extname_dotdot : extname (js "a/..") = js "".
Proof. reflexivity. Qed.

Example extname_trailing_slash : extname (js "a/b.json//") = js ".json".
Proof. reflexivity. Qed.

Example extname_samples :
  List.map extname
    [js "index.coffee.md"; js "index."; js "index"; js ".index"; js ".index.md";
     js ".."; js "a.b/c"; js ""]
  = [js ".md"; js "."; js ""; js ""; js ".md"; js ""; js ""; js ""].
Proof. reflexivity. Qed.

Example replace_first_only :
  replace (js "a.b.c") (js ".") (js "-") = js "a-b.c".
Proof. reflexivity. Qed.

Example replace_dollar_forms :
  replace (js "xx.yaml") (js ".yaml") (js "[$$|$&|$`|$'|$1]") = js "xx[$|.yaml|xx||$1]".
Proof. reflexivity. Qed.

Example replaceAll_dots :
  replaceAll (js " 1.2.3") (js ".") (js "-") = js " 1-2-3".
Proof. reflexivity. Qed.

Example replaceAll_empty_pattern :
  replaceAll (js "abc") (js "") (js "-") = js "-a-b-c-".
Proof. reflexivity. Qed.

Example replaceAll_no_overlap :
  replaceAll (js "aaaa") (js "aa") (js "b") = js "bb".
Proof. reflexivity. Qed.

Example trim_both_ends : trim (js "  v 1  ") = js "v 1".
Proof. reflexivity. Qed.


Lemma getSubstitution_nil (matched before after : jsstring) :
  getSubstitution matched before after [] = [].
Proof. reflexivity. Qed.

Lemma replace_empty_template (pat s : jsstring) :
  replace s pat [] = remove_first pat s.
Proof.
  unfold replace.
  induction s as [|c s IH]; simpl.
  - destruct (starts_with pat []); reflexivity.
  - destruct (starts_with pat (c :: s)); [reflexivity|].
    destruct (split_first pat s) as [[before after]|]; simpl in *.
    + now rewrite IH.
    + now rewrite <- IH.
Qed.

Lemma replaceAll_from_delete_char (a : N) (before s : jsstring) :
  replaceAll_from [a] [] before 0 s = without (fun c => c =? a) s.
Proof.
  revert before; induction s as [|c s IH]; intros before; simpl; [reflexivity|].
  rewrite (N.eqb_sym c a).
  destruct (a =? c); simpl; now rewrite IH.
Qed.

Lemma replaceAll_from_subst_char (a b : N) (before s : jsstring) :
  (b =? DOLLAR) = false ->
  replaceAll_from [a] [b] before 0 s = List.map (fun c => if c =? a then b else c) s.
Proof.
  intros Hb.
  revert before; induction s as [|c s IH]; intros before; simpl; [reflexivity|].
  rewrite (N.eqb_sym c a).
  destruct (a =? c); simpl; rewrite ?Hb; simpl; now rewrite IH.
Qed.

(** The assignment to [versionNumber] does what the specification says
    with the single quote as the quote character. *)
Lemma versionNumberOf_spec (line : jsstring) :
  versionNumberOf line = version_token_single_quotes line.
Proof.
  unfold versionNumberOf, version_token_single_quotes, replaceAll.
  change (js "") with (@nil N).
  change (js "'") with [QUOTE]. change (js ".") with [DOT].
  change (js "-") with [DASH].
  rewrite replace_empty_template, replaceAll_from_delete_char.
  rewrite replaceAll_from_subst_char by reflexivity.
  reflexivity.
Qed.

Lemma versionNumberOf_not_sentinel (line : jsstring) :
  eqb (versionNumberOf line) (js "0") = false.
Proof.
  unfold eqb. apply bool_decide_eq_false.
  unfold versionNumberOf. change (js "v") with [118]. change (js "0") with [48].
  simpl. intros Heq. inversion Heq.
Qed.

(** ** Substrings *)

Lemma includes_unfold (s pat : jsstring) :
  includes s pat =
  starts_with pat s || match s with [] => false | _ :: s' => includes s' pat end.
Proof. destruct s; reflexivity. Qed.

Lemma starts_with_app (p r : jsstring) : starts_with p (p ++ r) = true.
Proof.
  induction p as [|c p IH]; simpl; [reflexivity|].
  now rewrite N.eqb_refl, IH.
Qed.

Lemma starts_with_prefix (p q s : jsstring) :
  starts_with (p ++ q) s = true -> starts_with p s = true.
Proof.
  revert s; induction p as [|c p IH]; intros s; simpl; [reflexivity|].
  destruct s as [|d s]; [discriminate|].
  intros Hs. apply andb_prop in Hs as [Hc Hs].
  rewrite Hc. simpl. now apply IH.
Qed.

Lemma includes_skip (a s pat : jsstring) :
  includes s pat = true -> includes (a ++ s) pat = true.
Proof.
  intros Hs. induction a as [|c a IH]; simpl; [exact Hs|].
  rewrite IH. apply orb_true_r.
Qed.

Lemma includes_intro (a pat b : jsstring) : includes (a ++ pat ++ b) pat = true.
Proof.
  apply includes_skip. rewrite includes_unfold, starts_with_app. reflexivity.
Qed.

Lemma includes_prefix (s p q : jsstring) :
  includes s (p ++ q) = true -> includes s p = true.
Proof.
  induction s as [|c s IH]; simpl; intros Hs.
  - apply orb_prop in Hs as [Hs|Hs]; [|discriminate].
    now rewrite (starts_with_prefix p q []).
  - apply orb_prop in Hs as [Hs|Hs].
    + now rewrite (starts_with_prefix p q (c :: s)).
    + rewrite IH by exact Hs. apply orb_true_r.
Qed.

(** The first occurrence splits the string around the pattern. *)
Lemma split_first_replace (s pat tpl before after : jsstring) :
  split_first pat s = Some (before, after) ->
  replace s pat tpl = before ++ getSubstitution pat before after tpl ++ after.
Proof. intros Hs. unfold replace. now rewrite Hs. Qed.

(** Two or more commands chained with the logical AND show the
    operator. *)
Lemma and_chain_includes_and (cmds : list jsstring) :
  (2 <= length cmds)%nat -> includes (and_chain cmds) (js "&&") = true.
Proof.
  destruct cmds as [|c1 [|c2 rest]]; cbn [length]; try lia. intros _.
  change (and_chain (c1 :: c2 :: rest))
    with (c1 ++ (js " " ++ js "&&" ++ js " ") ++ and_chain (c2 :: rest)).
  rewrite <- !app_assoc. rewrite (app_assoc c1).
  apply includes_intro.
Qed.


(** [firstVersionLine] finds the line before which no line matches. *)
Lemma firstVersionLine_Some (lines : list jsstring) (line : jsstring) :
  firstVersionLine lines = Some line <->
  exists pre post,
    lines = pre ++ line :: post
    /\ Forall (fun l => includes l (js "version") = false) pre
    /\ includes line (js "version") = true.
Proof.
  induction lines as [|l rest IH]; simpl.
  - split; [discriminate|]. intros (pre & post & E & _). now destruct pre.
  - destruct (includes l (js "version")) eqn:Hl.
    + split.
      * intros E. injection E as <-. exists [], rest. repeat split; auto.
      * intros (pre & post & E & Hpre & Hline).
        destruct pre as [|p pre]; simpl in E; injection E as -> E.
        -- reflexivity.
        -- inversion Hpre; congruence.
    + rewrite IH. split.
      * intros (pre & post & -> & Hpre & Hline).
        exists (l :: pre), post. repeat split; auto.
      * intros (pre & post & E & Hpre & Hline).
        destruct pre as [|p pre]; simpl in E; injection E as -> E.
        -- congruence.
        -- inversion Hpre; subst. now exists pre, post.
Qed.

(** ** The registry of scripts *)

Lemma script_of_In (key value : jsstring) (l : list (jsstring * jsstring)) :
  script_of key l = Some value -> In (key, value) l.
Proof.
  induction l as [|[k v] l IH]; simpl; [discriminate|].
  unfold eqb. case_bool_decide as Hk.
  - intros E. injection E as ->. subst k. now left.
  - intros E. right. now apply IH.
Qed.

Lemma In_script_of (key value : jsstring) (l : list (jsstring * jsstring)) :
  NoDup (List.map fst l) -> In (key, value) l -> script_of key l = Some value.
Proof.
  induction l as [|[k v] l IH]; simpl; [tauto|].
  intros Hnd Hin. apply NoDup_cons in Hnd as [Hk Hnd].
  unfold eqb. case_bool_decide as Hkey.
  - destruct Hin as [E|Hin]; [congruence|].
    subst k. exfalso. apply Hk. apply list_elem_of_In.
    apply (in_map fst) in Hin. exact Hin.
  - destruct Hin as [E|Hin]; [congruence|]. now apply IH.
Qed.

Lemma npmScripts_keys_NoDup (fnv fne : jsstring) :
  NoDup (List.map fst (npmScripts fnv fne)).
Proof. apply (bool_decide_unpack _). vm_compute. exact I. Qed.

Lemma script_generate (fnv fne : jsstring) :
  script_of (js "generate") (npmScripts fnv fne) =
  Some (and_chain [npm_run (js "generate:swagger"); npm_run (js "generate:docs");
                   npm_run (js "generate:markdown")]).
Proof. reflexivity. Qed.

Lemma script_start (fnv fne : jsstring) :
  script_of (js "start") (npmScripts fnv fne) = Some start_command.
Proof. reflexivity. Qed.

Lemma start_command_no_and : includes start_command (js "&&") = false.
Proof. vm_compute. reflexivity. Qed.

(** The four commands that name the specification file name it as
    [open-api/] followed by the file name with the version. *)
Lemma open_api_reference (fnv fne key value : jsstring) :
  In key open_api_keys ->
  In (key, value) (npmScripts fnv fne) ->
  exists pre post, value = pre ++ (js "open-api/" ++ fnv) ++ post.
Proof.
  intros Hkey Hin.
  apply In_script_of in Hin; [|apply npmScripts_keys_NoDup].
  simpl in Hkey.
  destruct Hkey as [<-|[<-|[<-|[<-|[]]]]]; vm_compute in Hin;
    injection Hin as <-.
  - exists (js "npm run delete:swagger && npm run make:swagger && openapi-generator-cli generate -i "),
      (js " -g nodejs-express-server -o swagger-stub --additional-properties=serverPort=9999").
    vm_compute. reflexivity.
  - exists (js "npm run delete:docs && npm run make:docs && openapi-generator-cli generate -i "),
      (js " -g html2 -o html-docs").
    vm_compute. reflexivity.
  - exists (js "npm run delete:markdown && npm run make:markdown && widdershins "),
      (js " -o markdown-docs/" ++ fne
         ++ js "_dirty.md --omitHeader --expandBody --language_tabs 'javascript:JavaScript' && npm run markdown:prepare").
    vm_compute. reflexivity.
  - exists (js "prism mock "), []. rewrite app_nil_r. vm_compute. reflexivity.
Qed.

(** ** The script on any runtime *)

Section Verification.
Context {World : Type} `{Runtime World}.

Ltac run_step :=
  unfold bind, when, info, err, emit, ret, return_, throw, fs_existsSync,
    path_extname; cbn.

(** The scan stops at the first matching line, which alone decides the
    version number; without one the variable keeps its value. *)
Lemma eachLine_onLine (lines : list jsstring) (acc : jsstring) (st : @state World) :
  eachLine lines onLine acc st =
  match firstVersionLine lines with
  | None => (st, Normal acc)
  | Some line =>
      (log st [console_info (msg_found (versionNumberOf line))],
       Normal (versionNumberOf line))
  end.
Proof.
  revert acc st; induction lines as [|line rest IH]; intros acc st; cbn.
  - reflexivity.
  - unfold bind at 1, onLine.
    destruct (includes line (js "version")); cbn.
    + reflexivity.
    + apply IH.
Qed.

Lemma readLinesAsync_onLine (fileName : jsstring) (lines : list jsstring)
    (st : @state World) :
  readLines (world st) fileName = inr lines ->
  readLinesAsync fileName onLine (js "0") st =
  match firstVersionLine lines with
  | None => (st, Normal (js "0"))
  | Some line =>
      (log st [console_info (msg_found (versionNumberOf line))],
       Normal (versionNumberOf line))
  end.
Proof.
  intros Hread. unfold readLinesAsync. rewrite Hread. apply eachLine_onLine.
Qed.

Lemma run_from_start (w : World) (argv_f : argval) :
  run w argv_f =
  let (st, c) := main argv_f (start_state w) in
  {| final := world st; events := trace st;
     settled := match c with Throw e => Rejected e | _ => Fulfilled end |}.
Proof. reflexivity. Qed.

(** Past the three checks the function reads the file. *)
Lemma main_validated (s : jsstring) (st : @state World) :
  passes_validation (world st) (Str s) = true ->
  main (Str s) st =
  (versionNumber <- readLinesAsync s onLine (js "0") ;;
   when (eqb versionNumber (js "0")) (err msg_no_version ;; return_) ;;
   generate s (extname s) versionNumber)
    (log st [console_info msg_start; console_info msg_getting]).
Proof.
  unfold passes_validation. cbn.
  intros Hv.
  apply andb_prop in Hv as [Ht Hv]. apply andb_prop in Hv as [Hex Hext].
  unfold main. run_step. rewrite Ht. cbn. rewrite Hex. cbn.
  rewrite Hext. cbn.
  unfold log. cbn. rewrite <- app_assoc. reflexivity.
Qed.

(** Past the scan, with a version line, the function goes on with the
    version number of that line. *)
Lemma main_versioned (s : jsstring) (lines : list jsstring) (line : jsstring)
    (st : @state World) :
  passes_validation (world st) (Str s) = true ->
  readLines (world st) s = inr lines ->
  firstVersionLine lines = Some line ->
  main (Str s) st =
  generate s (extname s) (versionNumberOf line)
    (log st [console_info msg_start; console_info msg_getting;
             console_info (msg_found (versionNumberOf line))]).
Proof.
  intros Hv Hread Hline.
  rewrite main_validated by assumption.
  unfold bind at 1.
  rewrite (readLinesAsync_onLine s lines) by exact Hread.
  rewrite Hline.
  unfold bind at 1, when. rewrite versionNumberOf_not_sentinel.
  unfold ret, log. cbn. rewrite <- app_assoc. reflexivity.
Qed.

(** C3.  When the first line of the file that contains "version" is
    exactly [version: '1.2.3'], the scan yields the version token
    [v1-2-3], and it changes nothing in the world. *)
Theorem version_token_of_quoted_line (st : @state World) (fileName : jsstring)
    (lines : list jsstring) :
  readLines (world st) fileName = inr lines ->
  firstVersionLine lines = Some (js "version: '1.2.3'") ->
  exists st',
    readLinesAsync fileName onLine (js "0") st = (st', Normal (js "v1-2-3"))
    /\ world st' = world st.
Proof.
  intros Hread Hline.
  rewrite (readLinesAsync_onLine fileName lines) by exact Hread.
  rewrite Hline.
  eexists; split; [reflexivity | reflexivity].
Qed.

Lemma run_no_version_line (w : World) (s : jsstring) (lines : list jsstring) :
  passes_validation w (Str s) = true ->
  readLines w s = inr lines ->
  firstVersionLine lines = None ->
  run w (Str s) =
  {| final := w;
     events := [console_info msg_start; console_info msg_getting;
                console_error msg_no_version];
     settled := Fulfilled |}.
Proof.
  intros Hv Hread Hnone.
  rewrite run_from_start.
  rewrite (main_validated s (start_state w)) by exact Hv.
  unfold bind at 1.
  rewrite (readLinesAsync_onLine s lines) by exact Hread.
  rewrite Hnone. reflexivity.
Qed.

(** C5.  When no line of the file contains "version", the scan leaves
    the variable at its initial value "0", and the run prints the error
    and returns: the world is as it was and nothing but the three
    messages happened, in particular no directory was made. *)
Theorem no_version_line_aborts (w : World) (s : jsstring) (lines : list jsstring) :
  passes_validation w (Str s) = true ->
  readLines w s = inr lines ->
  firstVersionLine lines = None ->
  (forall st, world st = w ->
     readLinesAsync s onLine (js "0") st = (st, Normal (js "0")))
  /\ run w (Str s) =
     {| final := w;
        events := [console_info msg_start; console_info msg_getting;
                   console_error msg_no_version];
        settled := Fulfilled |}.
Proof.
  intros Hv Hread Hnone. split.
  - intros st Hw. subst w.
    rewrite (readLinesAsync_onLine s lines) by exact Hread.
    now rewrite Hnone.
  - now apply (run_no_version_line w s lines).
Qed.

Lemma run_invalid_input (w : World) (argv_f : argval) :
  passes_validation w argv_f = false ->
  exists diag,
    In diag [msg_no_file; msg_invalid_file (toString argv_f);
             msg_filetype (extname (toString argv_f))]
    /\ run w argv_f =
       {| final := w;
          events := [console_info msg_start; console_error diag];
          settled := Fulfilled |}.
Proof.
  unfold passes_validation. intros Hv.
  destruct argv_f as [|s|t text]; cbn in Hv.
  - exists msg_no_file. split; [simpl; tauto | reflexivity].
  - destruct (negb (eqb s [])) eqn:Ht; cbn in Hv.
    + destruct (existsSync w s) eqn:Hex; cbn in Hv.
      * exists (msg_filetype (extname s)). split; [simpl; tauto|].
        unfold run, main. run_step. rewrite Ht. cbn. rewrite Hex. cbn.
        rewrite Hv. reflexivity.
      * exists (msg_invalid_file s). split; [simpl; tauto|].
        unfold run, main. run_step. rewrite Ht. cbn. rewrite Hex. reflexivity.
    + exists msg_no_file. split; [simpl; tauto|].
      unfold run, main. run_step. rewrite Ht. reflexivity.
  - destruct t.
    + exists (msg_invalid_file text). split; [simpl; tauto | reflexivity].
    + exists msg_no_file. split; [simpl; tauto | reflexivity].
Qed.

(** C6.  When the input fails validation (no [-f] value, a path that
    does not exist, or an extension outside yaml, yml, json), the run
    prints one diagnostic and returns: the world is as it was, and after
    the opening message the diagnostic is the only event. *)
Theorem invalid_input_no_side_effect (w : World) (argv_f : argval) :
  passes_validation w argv_f = false ->
  exists diag,
    In diag [msg_no_file; msg_invalid_file (toString argv_f);
             msg_filetype (extname (toString argv_f))]
    /\ run w argv_f =
       {| final := w;
          events := [console_info msg_start; console_error diag];
          settled := Fulfilled |}.
Proof. exact (run_invalid_input w argv_f). Qed.

(** A file that cannot be read rejects the run before anything is
    made. *)
Lemma run_read_error (w : World) (s : jsstring) (e : error) :
  passes_validation w (Str s) = true ->
  readLines w s = inl e ->
  run w (Str s) =
  {| final := w;
     events := [console_info msg_start; console_info msg_getting];
     settled := Rejected e |}.
Proof.
  intros Hv Hread.
  rewrite run_from_start.
  rewrite (main_validated s (start_state w)) by exact Hv.
  unfold bind at 1, readLinesAsync. cbn. rewrite Hread. reflexivity.
Qed.

(** C4.  When [api-spec/<version>] exists at the check, the run prints
    the error and returns: the world is as it was, and nothing happened
    but the messages, so no directory or file was made. *)
Theorem existing_version_directory_untouched (w : World) (s : jsstring)
    (lines : list jsstring) (line : jsstring) :
  passes_validation w (Str s) = true ->
  readLines w s = inr lines ->
  firstVersionLine lines = Some line ->
  existsSync w (js "./api-spec/" ++ versionNumberOf line) = true ->
  run w (Str s) =
  {| final := w;
     events := [console_info msg_start; console_info msg_getting;
                console_info (msg_found (versionNumberOf line));
                console_error (msg_exists (versionNumberOf line))];
     settled := Fulfilled |}.
Proof.
  intros Hv Hread Hline Hdir.
  rewrite run_from_start.
  rewrite (main_versioned s lines line (start_state w)) by assumption.
  assert (Hex : existsSync w s = true).
  { unfold passes_validation in Hv. cbn in Hv.
    apply andb_prop in Hv as [_ Hv]. now apply andb_prop in Hv as [Hex _]. }
  unfold generate. run_step. rewrite Hex. cbn. rewrite Hdir. reflexivity.
Qed.

(** *** What a run can leave in its trace *)

Lemma appends_ret (P : event -> Prop) {A} (a : A) : appends (World:=World) P (ret a).
Proof. intros st. exists []. now rewrite app_nil_r. Qed.

Lemma appends_return (P : event -> Prop) {A} : appends (World:=World) P (@return_ World A).
Proof. intros st. exists []. now rewrite app_nil_r. Qed.

Lemma appends_throw (P : event -> Prop) {A} (e : error) : appends (World:=World) P (@throw World A e).
Proof. intros st. exists []. now rewrite app_nil_r. Qed.

Lemma appends_emit (P : event -> Prop) (e : event) : P e -> appends (World:=World) P (emit e).
Proof. intros He st. exists [e]. split; [reflexivity | now constructor]. Qed.

Lemma appends_call (P : event -> Prop) (e : event)
    (op : World -> World * option error) :
  P e -> appends (World:=World) P (call e op).
Proof.
  intros He st. exists [e]. unfold call.
  destruct (op (world st)) as [w' r]. split; [reflexivity | now constructor].
Qed.

Lemma appends_bind (P : event -> Prop) {A B} (m : M A) (k : A -> M B) :
  appends (World:=World) P m -> (forall a, appends (World:=World) P (k a)) -> appends (World:=World) P (bind m k).
Proof.
  intros Hm Hk st. unfold bind.
  destruct (Hm st) as (evs1 & E1 & F1).
  destruct (m st) as [st1 [a| |e]]; cbn in E1.
  - destruct (Hk a st1) as (evs2 & E2 & F2).
    exists (evs1 ++ evs2). rewrite E2, E1, app_assoc.
    split; [reflexivity | now apply Forall_app].
  - now exists evs1.
  - now exists evs1.
Qed.

Lemma appends_when (P : event -> Prop) (b : bool) (m : M unit) :
  appends (World:=World) P m -> appends (World:=World) P (when b m).
Proof. intros Hm. destruct b; [exact Hm | apply appends_ret]. Qed.

Lemma appends_fs_existsSync (P : event -> Prop) (p : argval) :
  appends (World:=World) P (fs_existsSync p).
Proof. intros st. exists []. now rewrite app_nil_r. Qed.

Lemma appends_promise_all (P : event -> Prop) (ps : list (M unit)) :
  Forall (appends (World:=World) P) ps -> appends (World:=World) P (promise_all ps).
Proof.
  induction 1 as [|p ps Hp _ IH]; cbn.
  - apply appends_ret.
  - intros st. destruct (Hp st) as (evs1 & E1 & F1).
    destruct (p st) as [st1 r1]; cbn in E1.
    destruct (IH st1) as (evs2 & E2 & F2).
    destruct (promise_all ps st1) as [st2 r2]; cbn in E2.
    exists (evs1 ++ evs2). cbn. rewrite E2, E1, app_assoc.
    split; [reflexivity | now apply Forall_app].
Qed.

Lemma appends_addScripts (P : event -> Prop) (l : list (jsstring * jsstring)) :
  (forall key value, In (key, value) l -> P (ev_npmAddScript key value)) ->
  appends (World:=World) P (addScripts l).
Proof.
  induction l as [|[key value] l IH]; intros Hl; cbn.
  - apply appends_ret.
  - apply appends_bind.
    + apply appends_call, Hl. now left.
    + intros _. apply IH. intros k v Hin. apply Hl. now right.
Qed.

Ltac trace_step :=
  first [ apply appends_addScripts; intros ? ? ?
        | apply appends_bind; [| intros ?]
        | apply appends_when
        | apply appends_fs_existsSync
        | apply appends_return
        | apply appends_emit
        | apply appends_call
        | apply appends_promise_all; repeat constructor ].

Lemma generate_appends (fileName extension versionNumber : jsstring) :
  appends (allowed fileName extension versionNumber)
          (generate fileName extension versionNumber).
Proof.
  unfold generate, scaffold, relocate, installAndGenerate, run_exec, run_makeDir,
    info, err.
  repeat trace_step; cbn; auto.
Qed.

(** The trace of a run that got its version number. *)
Lemma run_events_versioned (w : World) (s : jsstring) (lines : list jsstring)
    (line : jsstring) :
  passes_validation w (Str s) = true ->
  readLines w s = inr lines ->
  firstVersionLine lines = Some line ->
  exists evs,
    events (run w (Str s)) =
      [console_info msg_start; console_info msg_getting;
       console_info (msg_found (versionNumberOf line))] ++ evs
    /\ Forall (allowed s (extname s) (versionNumberOf line)) evs.
Proof.
  intros Hv Hread Hline.
  rewrite run_from_start.
  rewrite (main_versioned s lines line (start_state w)) by assumption.
  destruct (generate_appends s (extname s) (versionNumberOf line)
              (log (start_state w)
                 [console_info msg_start; console_info msg_getting;
                  console_info (msg_found (versionNumberOf line))]))
    as (evs & E & F).
  exists evs. split; [|exact F].
  destruct (generate _ _ _ _) as [st c]. exact E.
Qed.

(** *** Runs past validation *)

Lemma passes_validation_Str (w : World) (argv_f : argval) :
  passes_validation w argv_f = true -> exists s, argv_f = Str s.
Proof.
  unfold passes_validation.
  destruct argv_f as [|s|t text]; intros Hv.
  - discriminate.
  - now exists s.
  - now rewrite andb_false_r in Hv.
Qed.

(** An event that is not a console message is an act of [generate]:
    the run passed the checks and found its version line. *)
Lemma run_reaches_generate (w : World) (argv_f : argval) (e : event) :
  In e (events (run w argv_f)) ->
  (forall msg, e <> console_info msg) ->
  (forall msg, e <> console_error msg) ->
  exists s lines line,
    argv_f = Str s
    /\ passes_validation w (Str s) = true
    /\ readLines w s = inr lines
    /\ firstVersionLine lines = Some line
    /\ allowed s (extname s) (versionNumberOf line) e.
Proof.
  intros Hin Hi He.
  destruct (passes_validation w argv_f) eqn:Hv.
  - destruct (passes_validation_Str w argv_f Hv) as [s ->].
    destruct (readLines w s) as [e'|lines] eqn:Hread.
    + rewrite (run_read_error w s e') in Hin by assumption.
      cbn [events In] in Hin.
      destruct Hin as [<-|[<-|[]]]; exfalso; eapply Hi; reflexivity.
    + destruct (firstVersionLine lines) as [line|] eqn:Hline.
      * destruct (run_events_versioned w s lines line Hv Hread Hline)
          as (evs & E & F).
        rewrite E in Hin. apply in_app_or in Hin as [Hin|Hin].
        -- cbn [In] in Hin.
           destruct Hin as [<-|[<-|[<-|[]]]]; exfalso; eapply Hi; reflexivity.
        -- exists s, lines, line. repeat split; try assumption.
           rewrite Forall_forall in F. apply F. now apply list_elem_of_In.
      * rewrite (run_no_version_line w s lines) in Hin by assumption.
        cbn [events In] in Hin.
        destruct Hin as [<-|[<-|[<-|[]]]]; exfalso;
          first [eapply Hi; reflexivity | eapply He; reflexivity].
  - destruct (run_invalid_input w argv_f Hv) as (diag & _ & E).
    rewrite E in Hin. cbn [events In] in Hin.
    destruct Hin as [<-|[<-|[]]]; exfalso;
      first [eapply Hi; reflexivity | eapply He; reflexivity].
Qed.

Lemma run_registers_npmScripts (w : World) (argv_f : argval) (key value : jsstring) :
  In (ev_npmAddScript key value) (events (run w argv_f)) ->
  exists fnv fne, script_of key (npmScripts fnv fne) = Some value.
Proof.
  intros Hin.
  apply run_reaches_generate in Hin as (s & lines & line & _ & _ & _ & _ & Ha);
    try discriminate.
  cbn in Ha. eexists _, _.
  apply In_script_of; [apply npmScripts_keys_NoDup | exact Ha].
Qed.

(** C2, amended.  Whenever a run registers the script "generate", its
    command is the three generation commands chained with the logical
    AND; whenever a run registers the script "start", its command hands
    the three start commands to [concurrently], and holds no logical
    AND. *)
Theorem generate_chained_start_concurrent (w : World) (argv_f : argval)
    (key value : jsstring) :
  In (ev_npmAddScript key value) (events (run w argv_f)) ->
  (key = js "generate" ->
   value = and_chain [npm_run (js "generate:swagger");
                      npm_run (js "generate:docs");
                      npm_run (js "generate:markdown")]
   /\ chained_with_and value)
  /\ (key = js "start" ->
      value = start_command
      /\ includes value (js "&&") = false
      /\ ~ chained_with_and value).
Proof.
  intros Hin.
  destruct (run_registers_npmScripts w argv_f key value Hin) as (fnv & fne & Hs).
  split; intros ->.
  - rewrite script_generate in Hs. apply (inj Some) in Hs. subst value.
    split; [reflexivity|].
    eexists. split; [|reflexivity]. cbn [length]. lia.
  - rewrite script_start in Hs. apply (inj Some) in Hs. subst value.
    split; [reflexivity|]. split; [exact start_command_no_and|].
    intros (cmds & Hlen & E).
    pose proof (and_chain_includes_and cmds Hlen) as Hand.
    rewrite <- E, start_command_no_and in Hand. discriminate.
Qed.

(** *** The scaffolding step *)

Lemma bind_Normal {A B} (m : @M World A) (k : A -> M B)
    (st st' : @state World) (b : B) :
  bind m k st = (st', Normal b) ->
  exists a st1, m st = (st1, Normal a) /\ k a st1 = (st', Normal b).
Proof.
  unfold bind. destruct (m st) as [st1 [a| |e]]; intros E.
  - now exists a, st1.
  - discriminate.
  - discriminate.
Qed.

Lemma call_trace (e : event) (op : World -> World * option error)
    (st : @state World) :
  trace (fst (call e op st)) = trace st ++ [e].
Proof. unfold call. now destruct (op (world st)). Qed.

Lemma promise_all_trace (ps : list (@M World unit)) (evs : list event) :
  Forall2 (fun (p : @M World unit) e =>
             forall st, trace (fst (p st)) = trace st ++ [e]) ps evs ->
  forall st, trace (fst (promise_all ps st)) = trace st ++ evs.
Proof.
  induction 1 as [|p e ps evs Hp _ IH]; intros st; cbn.
  - now rewrite app_nil_r.
  - specialize (Hp st). destruct (p st) as [st1 r1]. cbn in Hp.
    specialize (IH st1). destruct (promise_all ps st1) as [st2 r2]. cbn in IH.
    cbn. rewrite IH, Hp, <- app_assoc. reflexivity.
Qed.

Lemma addScripts_Normal (l : list (jsstring * jsstring)) (st st' : @state World) :
  addScripts l st = (st', Normal tt) ->
  trace st' =
  trace st ++ List.map (fun kv => ev_npmAddScript (fst kv) (snd kv)) l.
Proof.
  revert st; induction l as [|[key value] l IH]; intros st; cbn.
  - intros E. injection E as <-. now rewrite app_nil_r.
  - intros E. apply bind_Normal in E as (a & st1 & E1 & E).
    apply IH in E. rewrite E.
    pose proof (call_trace (ev_npmAddScript key value) (npmAddScript key value) st)
      as Ht.
    rewrite E1 in Ht. cbn in Ht. rewrite Ht, <- app_assoc. reflexivity.
Qed.

Lemma registered_app (evs1 evs2 : list event) :
  registered (evs1 ++ evs2) = registered evs1 ++ registered evs2.
Proof. apply flat_map_app. Qed.

Lemma registered_scripts (l : list (jsstring * jsstring)) :
  registered (List.map (fun kv => ev_npmAddScript (fst kv) (snd kv)) l) = l.
Proof.
  induction l as [|[key value] l IH]; [reflexivity|].
  unfold registered in *. cbn. now rewrite IH.
Qed.

(** A scaffolding step that completes has registered the scripts of
    [npmScripts], in that order and each once. *)
Lemma scaffold_registered (versionNumber fnv fne : jsstring) (st st' : @state World) :
  scaffold versionNumber fnv fne st = (st', Normal tt) ->
  registered (trace st') = registered (trace st) ++ npmScripts fnv fne.
Proof.
  intros Hs. unfold scaffold in Hs.
  apply bind_Normal in Hs as (u1 & st1 & E1 & Hs).
  apply bind_Normal in Hs as (u2 & st2 & E2 & Hs).
  apply bind_Normal in Hs as (u3 & st3 & E3 & Hs).
  apply bind_Normal in Hs as (u4 & st4 & E4 & Hs).
  apply addScripts_Normal in Hs.
  injection E1 as <-. injection E4 as <-.
  pose proof (call_trace (ev_exec (js "npm init -y")) (exec (js "npm init -y")) st2)
    as Ht3.
  unfold run_exec in E3. rewrite E3 in Ht3. cbn in Ht3.
  match type of E2 with
  | promise_all ?ps ?st0 = _ =>
      assert (Ht2 : trace (fst (promise_all ps st0)) =
                    trace st0 ++
                    [ev_makeDir (js "api-spec/" ++ versionNumber ++ js "/open-api");
                     ev_makeDir (js "api-spec/" ++ versionNumber ++ js "/swagger-stub");
                     ev_makeDir (js "api-spec/" ++ versionNumber ++ js "/html-docs")])
        by (apply promise_all_trace; repeat constructor; intros ?;
            apply call_trace)
  end.
  rewrite E2 in Ht2. cbn [fst] in Ht2.
  rewrite Hs. cbn [trace]. rewrite Ht3, Ht2.
  cbn [trace]. rewrite !registered_app, registered_scripts. cbn.
  now rewrite !app_nil_r.
Qed.

Ltac other_message :=
  let E := fresh in
  intros E; try discriminate E;
  injection E as E; apply (f_equal (fun l => hd 0 l)) in E;
  vm_compute in E; discriminate E.

(** Until it is over, the scaffolding step does not print the message
    of the relocation step. *)
Lemma scaffold_appends (versionNumber fnv fne : jsstring) :
  appends (World:=World) (fun e => e <> console_info msg_moving)
          (scaffold versionNumber fnv fne).
Proof.
  unfold scaffold, run_exec, run_makeDir, info.
  repeat trace_step; other_message.
Qed.

(** The steps after it register no script. *)
Lemma relocate_appends (fileName versionNumber fnv : jsstring) :
  appends (World:=World) (fun e => registered [e] = [])
          (relocate fileName versionNumber fnv ;; installAndGenerate versionNumber).
Proof.
  unfold relocate, installAndGenerate, run_exec, info.
  repeat trace_step; reflexivity.
Qed.

Lemma registered_none (evs : list event) :
  Forall (fun e => registered [e] = []) evs -> registered evs = [].
Proof.
  induction 1 as [|e evs He _ IH]; [reflexivity|].
  change (e :: evs) with ([e] ++ evs). now rewrite registered_app, He, IH.
Qed.

(** [generate], guard by guard. *)
Lemma generate_guards (fileName extension versionNumber : jsstring) (st : @state World) :
  generate fileName extension versionNumber st =
  if negb (existsSync (world st) fileName) then
    (log st [console_error (msg_invalid_file fileName)], Return)
  else if existsSync (world st) (js "./api-spec/" ++ versionNumber) then
    (log st [console_error (msg_exists versionNumber)], Return)
  else
    let fileNameWithVersion :=
      replace fileName extension (js "-" ++ versionNumber ++ extension) in
    (scaffold versionNumber fileNameWithVersion
              (replace fileNameWithVersion extension (js "")) ;;
     relocate fileName versionNumber fileNameWithVersion ;;
     installAndGenerate versionNumber) st.
Proof.
  unfold generate.
  unfold bind at 1, fs_existsSync. unfold bind at 1, when.
  destruct (existsSync (world st) fileName); [|reflexivity].
  unfold negb, ret. unfold bind at 1. unfold bind at 1.
  destruct (existsSync (world st) (js "./api-spec/" ++ versionNumber));
    reflexivity.
Qed.

(** A run that got to the relocation step has completed the scaffolding
    step, from the state the three opening messages leave, and the
    scripts it has registered are those of [npmScripts], in that order
    and each once. *)
Lemma run_completes_scaffold (w : World) (argv_f : argval) :
  In (console_info msg_moving) (events (run w argv_f)) ->
  exists s lines line st1,
    argv_f = Str s
    /\ readLines w s = inr lines
    /\ firstVersionLine lines = Some line
    /\ let versionNumber := versionNumberOf line in
       let fnv := replace s (extname s) (js "-" ++ versionNumber ++ extname s) in
       let fne := replace fnv (extname s) (js "") in
       scaffold versionNumber fnv fne
         (log (start_state w)
            [console_info msg_start; console_info msg_getting;
             console_info (msg_found versionNumber)])
       = (st1, Normal tt)
       /\ registered (events (run w argv_f)) = npmScripts fnv fne.
Proof.
  intros Hin.
  destruct (passes_validation w argv_f) eqn:Hv.
  - destruct (passes_validation_Str w argv_f Hv) as [s ->].
    destruct (readLines w s) as [e'|lines] eqn:Hread.
    { rewrite (run_read_error w s e') in Hin by assumption.
      cbn [events In] in Hin. exfalso.
      destruct Hin as [E|[E|[]]]; revert E; other_message. }
    destruct (firstVersionLine lines) as [line|] eqn:Hline.
    2:{ rewrite (run_no_version_line w s lines) in Hin by assumption.
        cbn [events In] in Hin. exfalso.
        destruct Hin as [E|[E|[E|[]]]]; revert E; other_message. }
    exists s, lines, line.
    rewrite run_from_start in *.
    rewrite (main_versioned s lines line (start_state w)) in * by assumption.
    rewrite generate_guards in *. cbn [world log start_state] in *.
    destruct (existsSync w s).
    2:{ cbn [negb events trace log start_state app In] in Hin. exfalso.
        destruct Hin as [E|[E|[E|[E|[]]]]]; revert E; other_message. }
    cbn [negb] in *.
    destruct (existsSync w (js "./api-spec/" ++ versionNumberOf line)).
    { cbn [events trace log start_state app In] in Hin. exfalso.
      destruct Hin as [E|[E|[E|[E|[]]]]]; revert E; other_message. }
    cbv zeta in *.
    set (fnv := replace s (extname s) _) in *.
    set (fne := replace fnv (extname s) _) in *.
    set (st0 := log (start_state w) _) in *.
    unfold bind at 1. unfold bind at 1 in Hin.
    destruct (scaffold_appends (versionNumberOf line) fnv fne st0)
      as (evs & E & F).
    destruct (scaffold (versionNumberOf line) fnv fne st0) as [st1 c] eqn:Hsc.
    cbn [fst] in E.
    assert (Hquiet : ~ In (console_info msg_moving) (trace st1)).
    { rewrite E. intros Hm. apply in_app_or in Hm as [Hm|Hm].
      - cbn [trace st0 log start_state app In] in Hm.
        destruct Hm as [E'|[E'|[E'|[]]]]; revert E'; other_message.
      - rewrite Forall_forall in F. apply list_elem_of_In, F in Hm.
        now apply Hm. }
    destruct c as [[]| |e'].
    + exists st1.
      split; [reflexivity|]. split; [exact Hread|]. split; [exact Hline|].
      split; [reflexivity|].
      pose proof (scaffold_registered _ _ _ _ _ Hsc) as Hr.
      destruct (relocate_appends s (versionNumberOf line) fnv st1)
        as (evs2 & E2 & F2).
      destruct ((relocate s (versionNumberOf line) fnv ;;
                 installAndGenerate (versionNumberOf line)) st1) as [st2 c2].
      cbn [fst] in E2. cbn [events].
      rewrite E2, registered_app, Hr, (registered_none evs2 F2), app_nil_r.
      reflexivity.
    + exfalso. apply Hquiet. exact Hin.
    + exfalso. apply Hquiet. exact Hin.
  - destruct (run_invalid_input w argv_f Hv) as (diag & _ & E).
    rewrite E in Hin. cbn [events In] in Hin. exfalso.
    destruct Hin as [E'|[E'|[]]]; revert E'; other_message.
Qed.

(** The documented keys are keys of [npmScripts], with commands that
    are not empty. *)
Lemma documented_keys_registered (fnv fne : jsstring) :
  Forall (fun key =>
            exists value, In (key, value) (npmScripts fnv fne) /\ value <> [])
         documented_keys.
Proof.
  unfold documented_keys.
  repeat (constructor;
          [eexists; split;
             [apply script_of_In; vm_compute; reflexivity | discriminate]|]).
  constructor.
Qed.

(** *** The version token and the paths made from it *)



(** C8, amended.  When the file has a line that contains "version", the
    scan yields the token of the first such line, whatever follows it:
    the first occurrence of the key token [version:] removed, the
    single quotes removed, dots turned into dashes, white space trimmed,
    "v" in front.  Double quotes stay. *)
Theorem version_token_from_first_line (st : @state World) (fileName : jsstring)
    (lines : list jsstring) (line : jsstring) :
  readLines (world st) fileName = inr lines ->
  firstVersionLine lines = Some line ->
  exists st',
    readLinesAsync fileName onLine (js "0") st =
      (st', Normal (version_token_single_quotes line))
    /\ world st' = world st.
Proof.
  intros Hread Hline.
  rewrite (readLinesAsync_onLine fileName lines) by exact Hread.
  rewrite Hline, versionNumberOf_spec.
  eexists; split; reflexivity.
Qed.


(** In a run that found its version line, the copy goes to
    [api-spec/<version>/open-api/] followed by the [-f] value as it was
    given, directories and all.  The commands that name the file under
    [open-api/] hold a directory part [dir/] of the value whenever the
    first occurrence of the extension in the value lies past that
    part. *)
Theorem copy_destination_and_script_references (w : World) (s : jsstring)
    (lines : list jsstring) (line : jsstring) :
  passes_validation w (Str s) = true ->
  readLines w s = inr lines ->
  firstVersionLine lines = Some line ->
  let versionNumber := versionNumberOf line in
  (forall src dest,
     In (ev_copyFile src dest) (events (run w (Str s))) ->
     src = s /\ dest = js "api-spec/" ++ versionNumber ++ js "/open-api/" ++ s)
  /\ (forall key value dir stem after,
        In (ev_npmAddScript key value) (events (run w (Str s))) ->
        In key open_api_keys ->
        split_first (extname s) s = Some (dir ++ js "/" ++ stem, after) ->
        includes value (js "open-api/" ++ dir ++ js "/") = true).
Proof.
  intros Hv Hread Hline versionNumber.
  destruct (run_events_versioned w s lines line Hv Hread Hline) as (evs & E & F).
  rewrite Forall_forall in F.
  assert (Hevs : forall e, In e (events (run w (Str s))) ->
                 (forall msg, e <> console_info msg) ->
                 allowed s (extname s) versionNumber e).
  { intros e Hin Hi. rewrite E in Hin. apply in_app_or in Hin as [Hin|Hin].
    - cbn [In] in Hin.
      destruct Hin as [<-|[<-|[<-|[]]]]; exfalso; eapply Hi; reflexivity.
    - apply F. now apply list_elem_of_In. }
  split.
  - intros src dest Hin. apply Hevs in Hin; [exact Hin | discriminate].
  - intros key value dir stem after Hin Hkey Hsplit.
    apply Hevs in Hin; [|discriminate]. cbn in Hin.
    destruct (open_api_reference _ _ key value Hkey Hin) as (pre & post & ->).
    rewrite (split_first_replace _ _ _ _ _ Hsplit).
    rewrite <- !app_assoc.
    rewrite (app_assoc (js "open-api/")), (app_assoc _ (js "/")).
    apply includes_intro.
Qed.

End Verification.

(** The rename of the relocation step always names its source under
    [ozpen-api], a directory the run never makes. *)
Lemma rename_source_misspelt {World : Type} `{Runtime World}
    (w : World) (argv_f : argval) (oldPath newPath : jsstring) :
  In (ev_rename oldPath newPath) (events (run w argv_f)) ->
  exists s lines line,
    argv_f = Str s
    /\ readLines w s = inr lines
    /\ firstVersionLine lines = Some line
    /\ oldPath = js "api-spec/" ++ versionNumberOf line ++ js "/ozpen-api/" ++ s.
Proof.
  intros Hin.
  apply run_reaches_generate in Hin
    as (s & lines & line & -> & _ & Hread & Hline & Ha); try discriminate.
  exists s, lines, line. repeat split; try assumption. apply Ha.
Qed.

(** Where the line has no double quote, the token is the one the words
    of the specification give. *)
Lemma In_drop (n : nat) (l : jsstring) (c : N) : In c (drop n l) -> In c l.
Proof.
  revert l; induction n as [|n IH]; intros [|d l]; simpl; auto.
Qed.

Lemma remove_first_In (pat s : jsstring) (c : N) :
  In c (remove_first pat s) -> In c s.
Proof.
  induction s as [|d s IH]; cbn [remove_first].
  - destruct (starts_with pat []); [apply In_drop | tauto].
  - destruct (starts_with pat (d :: s)); [apply In_drop|].
    intros [->|Hin]; [now left | right; now apply IH].
Qed.

Lemma version_token_agrees_without_double_quotes (line : jsstring) :
  ~ In DQUOTE line ->
  version_token_single_quotes line = spec_version_token line.
Proof.
  intros Hdq. unfold version_token_single_quotes, spec_version_token.
  do 3 f_equal. unfold without. apply filter_ext_in.
  intros c Hin. apply remove_first_In in Hin.
  unfold is_single_quote, is_quote.
  destruct (c =? DQUOTE) eqn:Hc; [|now rewrite orb_false_r].
  apply N.eqb_eq in Hc. subst c. contradiction.
Qed.

(** ** Runs on the simulated file system *)

(** Membership in a trace, decided. *)
Lemma In_event (e : event) (l : list event) :
  bool_decide (e ∈ l) = true -> In e l.
Proof. intros Hd. apply bool_decide_eq_true in Hd. now apply list_elem_of_In. Qed.


Example lines_of_spec_yaml :
  sim_readLines world_spec (js "spec.yaml") =
  inr [js "openapi: 3.0.0"; js "info:"; js "  version: 2.0.0"; js "  title: Pets"].
Proof. vm_compute. reflexivity. Qed.

Example lines_cr_lf :
  lines_of (js "a" ++ [13; 10] ++ js "b" ++ [13] ++ [10] ++ [10] ++ js "c")
  = [js "a"; js "b"; js ""; js "c"].
Proof. vm_compute. reflexivity. Qed.

(** C1: the code at the scenario of the specification.  The copy is
    made under the name of the input; the rename asks for a source
    under [ozpen-api] and is refused, which rejects the run.  So
    [open-api/] holds [spec.yaml], with the contents of the input, and
    no [spec-v2-0-0.yaml], and the manifest is still in the working
    directory. *)
Theorem relocation_leaves_the_copy_unrenamed :
  let r := run world_spec (Str (js "spec.yaml")) in
  settled r = Rejected ENOENT
  /\ last (events r) =
     Some (ev_rename (js "api-spec/v2-0-0/ozpen-api/spec.yaml")
                     (js "api-spec/v2-0-0/open-api/spec-v2-0-0.yaml"))
  /\ sim_existsSync (final r) (js "api-spec/v2-0-0/open-api") = true
  /\ sim_readLines (final r) (js "api-spec/v2-0-0/open-api/spec.yaml")
     = inr (lines_of spec_yaml)
  /\ sim_existsSync (final r) (js "api-spec/v2-0-0/open-api/spec-v2-0-0.yaml") = false
  /\ sim_existsSync (final r) (js "package.json") = true
  /\ sim_existsSync (final r) (js "api-spec/v2-0-0/package.json") = false.
Proof. vm_compute. repeat split; reflexivity. Qed.

(** With the source spelt [open-api] the same rename goes through, and
    the file is there under the name with the version. *)
Example rename_with_the_intended_source :
  let w := final (run world_spec (Str (js "spec.yaml"))) in
  let done := sim_rename (js "api-spec/v2-0-0/open-api/spec.yaml")
                         (js "api-spec/v2-0-0/open-api/spec-v2-0-0.yaml") w in
  snd done = None
  /\ sim_readLines (fst done) (js "api-spec/v2-0-0/open-api/spec-v2-0-0.yaml")
     = inr (lines_of spec_yaml)
  /\ sim_existsSync (fst done) (js "api-spec/v2-0-0/open-api/spec.yaml") = false.
Proof. vm_compute. repeat split; reflexivity. Qed.

(** C2 as stated fails: the command registered for "start" is not a
    chain of commands joined by the logical AND. *)
Lemma start_script_not_chained :
  exists value,
    In (ev_npmAddScript (js "start") value)
       (events (run world_spec (Str (js "spec.yaml"))))
    /\ ~ chained_with_and value.
Proof.
  exists start_command. split.
  - apply In_event. vm_compute. reflexivity.
  - intros (cmds & Hlen & E).
    pose proof (and_chain_includes_and cmds Hlen) as Hand.
    rewrite <- E, start_command_no_and in Hand. discriminate.
Qed.

Lemma generate_chained_start_concurrent_witness :
  let value := and_chain [npm_run (js "generate:swagger");
                          npm_run (js "generate:docs");
                          npm_run (js "generate:markdown")] in
  In (ev_npmAddScript (js "generate") value)
     (events (run world_spec (Str (js "spec.yaml"))))
  /\ value = js "npm run generate:swagger && npm run generate:docs && npm run generate:markdown"
  /\ chained_with_and value.
Proof.
  intros value.
  assert (Hin : In (ev_npmAddScript (js "generate") value)
                   (events (run world_spec (Str (js "spec.yaml"))))).
  { apply In_event. vm_compute. reflexivity. }
  split; [exact Hin|]. split; [reflexivity|].
  apply (generate_chained_start_concurrent world_spec (Str (js "spec.yaml"))
           (js "generate") value Hin).
  reflexivity.
Defined.

(** C8 as stated fails: a version in double quotes keeps its quotes in
    the token, where the words of the specification give [v1-2-3]. *)
Lemma double_quotes_stay_in_version_token :
  sim_readLines world_double_quoted (js "spec.yaml")
  = inr [js "info:"; line_double_quoted; js "  title: Pets"]
  /\ firstVersionLine [js "info:"; line_double_quoted; js "  title: Pets"]
     = Some line_double_quoted
  /\ snd (readLinesAsync (js "spec.yaml") onLine (js "0")
            (start_state world_double_quoted))
     = Normal (js "v" ++ dq ++ js "1-2-3" ++ dq)
  /\ spec_version_token line_double_quoted = js "v1-2-3"
  /\ js "v" ++ dq ++ js "1-2-3" ++ dq <> spec_version_token line_double_quoted.
Proof.
  repeat split; try (vm_compute; reflexivity).
  vm_compute. discriminate.
Qed.

Lemma version_token_from_first_line_witness :
  readLines (world (start_state world_double_quoted)) (js "spec.yaml")
  = inr [js "info:"; line_double_quoted; js "  title: Pets"]
  /\ firstVersionLine [js "info:"; line_double_quoted; js "  title: Pets"]
     = Some line_double_quoted
  /\ exists st',
       readLinesAsync (js "spec.yaml") onLine (js "0")
         (start_state world_double_quoted)
       = (st', Normal (version_token_single_quotes line_double_quoted))
       /\ world st' = world (start_state world_double_quoted).
Proof.
  split; [vm_compute; reflexivity|]. split; [vm_compute; reflexivity|].
  apply (version_token_from_first_line (start_state world_double_quoted)
           (js "spec.yaml") [js "info:"; line_double_quoted; js "  title: Pets"]).
  - vm_compute. reflexivity.
  - vm_compute. reflexivity.
Defined.

Lemma version_token_of_quoted_line_witness :
  readLines (world (start_state world_quoted)) (js "api.yml")
  = inr [js "openapi: 3.0.0"; js "version: '1.2.3'"; js "paths: {}"]
  /\ firstVersionLine [js "openapi: 3.0.0"; js "version: '1.2.3'"; js "paths: {}"]
     = Some (js "version: '1.2.3'")
  /\ exists st',
       readLinesAsync (js "api.yml") onLine (js "0") (start_state world_quoted)
       = (st', Normal (js "v1-2-3"))
       /\ world st' = world (start_state world_quoted).
Proof.
  split; [vm_compute; reflexivity|]. split; [vm_compute; reflexivity|].
  apply (version_token_of_quoted_line (start_state world_quoted) (js "api.yml")
           [js "openapi: 3.0.0"; js "version: '1.2.3'"; js "paths: {}"]).
  - vm_compute. reflexivity.
  - vm_compute. reflexivity.
Defined.

Lemma existing_version_directory_untouched_witness :
  passes_validation world_taken (Str (js "spec.yaml")) = true
  /\ existsSync world_taken (js "./api-spec/" ++ versionNumberOf (js "  version: 2.0.0"))
     = true
  /\ run world_taken (Str (js "spec.yaml")) =
     {| final := world_taken;
        events := [console_info msg_start; console_info msg_getting;
                   console_info (msg_found (js "v2-0-0"));
                   console_error (msg_exists (js "v2-0-0"))];
        settled := Fulfilled |}.
Proof.
  split; [vm_compute; reflexivity|]. split; [vm_compute; reflexivity|].
  apply (existing_version_directory_untouched world_taken (js "spec.yaml")
           [js "openapi: 3.0.0"; js "info:"; js "  version: 2.0.0"; js "  title: Pets"]
           (js "  version: 2.0.0")).
  - vm_compute. reflexivity.
  - vm_compute. reflexivity.
  - vm_compute. reflexivity.
  - vm_compute. reflexivity.
Defined.

Lemma no_version_line_aborts_witness :
  passes_validation world_unversioned (Str (js "spec.json")) = true
  /\ readLines world_unversioned (js "spec.json")
     = inr [js "{"; js "  'paths': {}"; js "}"]
  /\ run world_unversioned (Str (js "spec.json")) =
     {| final := world_unversioned;
        events := [console_info msg_start; console_info msg_getting;
                   console_error msg_no_version];
        settled := Fulfilled |}.
Proof.
  split; [vm_compute; reflexivity|]. split; [vm_compute; reflexivity|].
  apply (no_version_line_aborts world_unversioned (js "spec.json")
           [js "{"; js "  'paths': {}"; js "}"]).
  - vm_compute. reflexivity.
  - vm_compute. reflexivity.
  - vm_compute. reflexivity.
Defined.

Lemma invalid_input_no_side_effect_witness :
  passes_validation world_notes (Str (js "notes.txt")) = false
  /\ exists diag,
       In diag [msg_no_file; msg_invalid_file (js "notes.txt");
                msg_filetype (extname (js "notes.txt"))]
       /\ run world_notes (Str (js "notes.txt")) =
          {| final := world_notes;
             events := [console_info msg_start; console_error diag];
             settled := Fulfilled |}.
Proof.
  split; [vm_compute; reflexivity|].
  apply (invalid_input_no_side_effect world_notes (Str (js "notes.txt"))).
  vm_compute. reflexivity.
Defined.

(** *** The manifest after the scaffolding step *)

Lemma get_set_script_same (key value : jsstring)
    (scripts : list (jsstring * jsstring)) :
  get_script key (set_script key value scripts) = Some value.
Proof.
  induction scripts as [|[k v] rest IH]; cbn [set_script get_script].
  - unfold eqb. rewrite bool_decide_eq_true_2 by reflexivity. reflexivity.
  - destruct (eqb k key) eqn:E; cbn [get_script].
    + unfold eqb. rewrite bool_decide_eq_true_2 by reflexivity. reflexivity.
    + rewrite E. exact IH.
Qed.

Lemma get_set_script_other (key key' value : jsstring)
    (scripts : list (jsstring * jsstring)) :
  key' <> key ->
  get_script key' (set_script key value scripts) = get_script key' scripts.
Proof.
  intros Hne.
  assert (Hk : eqb key key' = false).
  { unfold eqb. apply bool_decide_eq_false_2. intros E. now apply Hne. }
  induction scripts as [|[k v] rest IH]; cbn [set_script get_script].
  - now rewrite Hk.
  - destruct (eqb k key) eqn:E; cbn [get_script].
    + unfold eqb in E. apply bool_decide_eq_true_1 in E. subst k.
      now rewrite Hk.
    + destruct (eqb k key'); [reflexivity | exact IH].
Qed.

(** [npm init -y] that succeeds leaves a manifest in the working
    directory. *)
Lemma sim_npm_init (st st' : @state fs) (u : unit) :
  run_exec (js "npm init -y") st = (st', Normal u) ->
  cwd (world st') = cwd (world st)
  /\ exists scripts,
       nodes (world st') !! (cwd (world st) ++ [js "package.json"])
       = Some (Manifest scripts).
Proof.
  unfold run_exec, call. cbn [exec sim_runtime]. unfold sim_exec.
  replace (eqb (js "npm init -y") (js "npm init -y")) with true
    by (symmetry; apply bool_decide_eq_true_2; reflexivity).
  destruct (nodes (world st) !! (cwd (world st) ++ [js "package.json"]))
    as [[| data | scripts]|] eqn:Hn; try discriminate.
  - destruct (is_set (js "test") scripts); intros E; apply (inj2 pair) in E as [<- _];
      cbn [world cwd nodes with_nodes].
    + split; [reflexivity|]. now exists scripts.
    + split; [reflexivity|]. eexists. apply lookup_insert_eq.
  - intros E. apply (inj2 pair) in E as [<- _]. cbn [world cwd nodes with_nodes].
    split; [reflexivity|]. eexists. apply lookup_insert_eq.
Qed.

(** Registrations that all succeed leave a manifest in which every one
    of them is set, as long as no key comes twice; the other keys are
    as they were. *)
Lemma sim_addScripts_manifest (l : list (jsstring * jsstring)) :
  NoDup (List.map fst l) ->
  forall (st st' : @state fs) (scripts : list (jsstring * jsstring)),
    nodes (world st) !! (cwd (world st) ++ [js "package.json"])
    = Some (Manifest scripts) ->
    addScripts l st = (st', Normal tt) ->
    cwd (world st') = cwd (world st)
    /\ exists scripts',
         nodes (world st') !! (cwd (world st) ++ [js "package.json"])
         = Some (Manifest scripts')
         /\ (forall key value, In (key, value) l -> get_script key scripts' = Some value)
         /\ (forall key, ~ In key (List.map fst l) ->
                         get_script key scripts' = get_script key scripts).
Proof.
  induction l as [|[key value] l IH]; intros Hnd st st' scripts Hm E.
  - cbn in E. apply (inj2 pair) in E as [<- _].
    split; [reflexivity|]. exists scripts. split; [exact Hm|].
    split; [intros ? ? []|reflexivity].
  - cbn [List.map fst] in Hnd. apply NoDup_cons in Hnd as [Hnew Hnd].
    cbn [addScripts] in E. apply bind_Normal in E as (u & st1 & E1 & E).
    assert (Hst1 : cwd (world st1) = cwd (world st)
                   /\ nodes (world st1) !! (cwd (world st) ++ [js "package.json"])
                      = Some (Manifest (set_script key value scripts))).
    { revert E1. unfold call. cbn [npmAddScript sim_runtime].
      unfold sim_npmAddScript.
      destruct (eqb key [] || eqb value []); [discriminate|].
      rewrite Hm.
      destruct (is_set key scripts); [discriminate|].
      intros E1. apply (inj2 pair) in E1 as [<- _].
      cbn [world cwd nodes with_nodes].
      split; [reflexivity|]. apply lookup_insert_eq. }
    destruct Hst1 as [Hcwd Hm1].
    rewrite <- Hcwd in Hm1.
    destruct (IH Hnd st1 st' _ Hm1 E) as (Hcwd' & scripts' & Hm' & Hset & Hkeep).
    rewrite Hcwd in Hcwd', Hm'.
    split; [exact Hcwd'|]. exists scripts'. split; [exact Hm'|]. split.
    + intros k v [Hkv|Hkv].
      * apply (inj2 pair) in Hkv as [<- <-].
        rewrite (Hkeep key) by (intros Hin; apply Hnew, list_elem_of_In, Hin).
        apply get_set_script_same.
      * now apply Hset.
    + intros k Hk. cbn [List.map fst In] in Hk.
      rewrite (Hkeep k) by (intros Hin; apply Hk; now right).
      apply get_set_script_other. intros ->. apply Hk. now left.
Qed.

(** Making the three directories keeps the working directory. *)
Lemma sim_makeDirs_cwd (dirs : list jsstring) :
  forall (st st' : @state fs) (c : completion unit),
    promise_all (List.map run_makeDir dirs) st = (st', c) ->
    cwd (world st') = cwd (world st).
Proof.
  induction dirs as [|d dirs IH]; intros st st' c; cbn [List.map promise_all].
  - intros E. apply (inj2 pair) in E as [<- _]. reflexivity.
  - unfold run_makeDir at 1. unfold call. cbn [makeDir sim_runtime].
    unfold sim_makeDir.
    destruct (mkdirp (nodes (world st)) (origin (world st) d) (split_slash d))
      as [m r].
    match goal with
    | |- context [promise_all ?ps ?st1] =>
        specialize (IH st1); destruct (promise_all ps st1) as [st2 r2]
    end.
    specialize (IH st2 r2 eq_refl). cbn [world cwd with_nodes] in IH.
    intros E. apply (inj2 pair) in E as [<- _]. exact IH.
Qed.

(** A scaffolding step that completes leaves, in the working directory,
    a manifest in which every script of [npmScripts] is set to its
    command. *)
Lemma sim_scaffold_manifest (versionNumber fnv fne : jsstring)
    (st st' : @state fs) :
  scaffold versionNumber fnv fne st = (st', Normal tt) ->
  exists scripts,
    nodes (world st') !! (cwd (world st) ++ [js "package.json"])
    = Some (Manifest scripts)
    /\ forall key value,
         In (key, value) (npmScripts fnv fne) -> get_script key scripts = Some value.
Proof.
  intros Hs. unfold scaffold in Hs.
  apply bind_Normal in Hs as (u1 & st1 & E1 & Hs).
  apply bind_Normal in Hs as (u2 & st2 & E2 & Hs).
  apply bind_Normal in Hs as (u3 & st3 & E3 & Hs).
  apply bind_Normal in Hs as (u4 & st4 & E4 & Hs).
  apply (inj2 pair) in E1 as [<- _]. apply (inj2 pair) in E4 as [<- _].
  assert (Hc2 : cwd (world st2) = cwd (world st)).
  { exact (sim_makeDirs_cwd
             [js "api-spec/" ++ versionNumber ++ js "/open-api";
              js "api-spec/" ++ versionNumber ++ js "/swagger-stub";
              js "api-spec/" ++ versionNumber ++ js "/html-docs"] _ _ _ E2). }
  apply sim_npm_init in E3 as (Hc3 & scripts0 & Hm3).
  rewrite Hc2 in Hc3, Hm3.
  destruct (sim_addScripts_manifest (npmScripts fnv fne)
              (npmScripts_keys_NoDup fnv fne)
              (log st3 [console_info (js "Adding NPM Scripts...")]) st' scripts0)
    as (_ & scripts & Hm & Hset & _).
  - cbn [world log]. rewrite Hc3. exact Hm3.
  - exact Hs.
  - exists scripts. cbn [world log] in Hm. rewrite Hc3 in Hm.
    split; [exact Hm | exact Hset].
Qed.

(** C7.  A run that got to the relocation step has completed the
    scaffolding step, and when that step is complete the manifest of
    the working directory holds every script of [npmScripts] under its
    key, with the command registered for it: so it holds every
    documented key, each with a command that is not empty.  The scripts
    were registered once each, in the order of [npmScripts], and no key
    occurs twice among them. *)
Theorem manifest_holds_documented_scripts (w : fs) (argv_f : argval) :
  In (console_info msg_moving) (events (run w argv_f)) ->
  exists s lines line st1 scripts,
    argv_f = Str s
    /\ readLines w s = inr lines
    /\ firstVersionLine lines = Some line
    /\ let versionNumber := versionNumberOf line in
       let fnv := replace s (extname s) (js "-" ++ versionNumber ++ extname s) in
       let fne := replace fnv (extname s) (js "") in
       scaffold versionNumber fnv fne
         (log (start_state w)
            [console_info msg_start; console_info msg_getting;
             console_info (msg_found versionNumber)])
       = (st1, Normal tt)
       /\ nodes (world st1) !! (cwd w ++ [js "package.json"]) = Some (Manifest scripts)
       /\ (forall key value,
             In (key, value) (npmScripts fnv fne) -> get_script key scripts = Some value)
       /\ Forall (fun key =>
                    exists value, get_script key scripts = Some value /\ value <> [])
                 documented_keys
       /\ registered (events (run w argv_f)) = npmScripts fnv fne
       /\ NoDup (List.map fst (npmScripts fnv fne)).
Proof.
  intros Hin.
  destruct (run_completes_scaffold w argv_f Hin)
    as (s & lines & line & st1 & -> & Hread & Hline & Hsc & Hreg).
  destruct (sim_scaffold_manifest _ _ _ _ _ Hsc) as (scripts & Hm & Hset).
  exists s, lines, line, st1, scripts.
  split; [reflexivity|]. split; [exact Hread|]. split; [exact Hline|].
  cbv zeta. split; [exact Hsc|]. split; [exact Hm|]. split; [exact Hset|].
  split; [|split; [exact Hreg | apply npmScripts_keys_NoDup]].
  match type of Hreg with
  | _ = npmScripts ?fnv ?fne =>
      apply (Forall_impl _ _ _ (documented_keys_registered fnv fne))
  end.
  intros key (value & Hkv & Hne). exists value. split; [now apply Hset | exact Hne].
Qed.

Lemma manifest_holds_documented_scripts_witness :
  let r := run world_spec (Str (js "spec.yaml")) in
  In (console_info msg_moving) (events r)
  /\ exists s lines line st1 scripts,
       Str (js "spec.yaml") = Str s
       /\ readLines world_spec s = inr lines
       /\ firstVersionLine lines = Some line
       /\ let versionNumber := versionNumberOf line in
          let fnv := replace s (extname s) (js "-" ++ versionNumber ++ extname s) in
          let fne := replace fnv (extname s) (js "") in
          scaffold versionNumber fnv fne
            (log (start_state world_spec)
               [console_info msg_start; console_info msg_getting;
                console_info (msg_found versionNumber)])
          = (st1, Normal tt)
          /\ nodes (world st1) !! (cwd world_spec ++ [js "package.json"])
             = Some (Manifest scripts)
          /\ (forall key value,
                In (key, value) (npmScripts fnv fne)
                -> get_script key scripts = Some value)
          /\ Forall (fun key =>
                       exists value,
                         get_script key scripts = Some value /\ value <> [])
                    documented_keys
          /\ registered (events r) = npmScripts fnv fne
          /\ NoDup (List.map fst (npmScripts fnv fne)).
Proof.
  intros r.
  assert (Hin : In (console_info msg_moving) (events r))
    by (apply In_event; vm_compute; reflexivity).
  split; [exact Hin|].
  exact (manifest_holds_documented_scripts world_spec (Str (js "spec.yaml")) Hin).
Defined.


(** C10.  The run on [-f a.yaml/b.yaml], with the file [b.yaml] in the
    directory [a.yaml]: the copy goes to [open-api/a.yaml/b.yaml], the
    value as it was given, while the name with the version is
    [a-v1.yaml/b.yaml], since [fileName.replace(extension, ...)] rewrites
    the first [.yaml] of the value, which is in the name of the
    directory and not the extension of the file.  The commands
    therefore name [open-api/a-v1.yaml/b.yaml]: the directory of the
    value is not in them, and they do not name the place of the
    copy. *)
Lemma directory_rewritten_in_script_reference :
  let r := run world_nested (Str (js "a.yaml/b.yaml")) in
  In (ev_copyFile (js "a.yaml/b.yaml") (js "api-spec/v1/open-api/a.yaml/b.yaml"))
     (events r)
  /\ replace (js "a.yaml/b.yaml") (extname (js "a.yaml/b.yaml"))
       (js "-" ++ js "v1" ++ extname (js "a.yaml/b.yaml"))
     = js "a-v1.yaml/b.yaml"
  /\ In (ev_npmAddScript (js "start:prism") (js "prism mock open-api/a-v1.yaml/b.yaml"))
        (events r)
  /\ In (js "start:prism") open_api_keys
  /\ includes (js "prism mock open-api/a-v1.yaml/b.yaml") (js "open-api/a.yaml/")
     = false.
Proof.
  intros r. split; [|split; [|split; [|split]]].
  - apply In_event. vm_compute. reflexivity.
  - vm_compute. reflexivity.
  - apply In_event. vm_compute. reflexivity.
  - unfold open_api_keys. cbn [In]. tauto.
  - vm_compute. reflexivity.
Qed.

Lemma copy_destination_and_script_references_witness :
  let r := run world_in_dir (Str (js "specs/api.yaml")) in
  passes_validation world_in_dir (Str (js "specs/api.yaml")) = true
  /\ readLines world_in_dir (js "specs/api.yaml") = inr [js "version: 1"]
  /\ firstVersionLine [js "version: 1"] = Some (js "version: 1")
  /\ In (ev_copyFile (js "specs/api.yaml") (js "api-spec/v1/open-api/specs/api.yaml"))
        (events r)
  /\ js "api-spec/v1/open-api/specs/api.yaml"
     = js "api-spec/" ++ versionNumberOf (js "version: 1")
         ++ js "/open-api/" ++ js "specs/api.yaml"
  /\ In (ev_npmAddScript (js "start:prism") (js "prism mock open-api/specs/api-v1.yaml"))
        (events r)
  /\ includes (js "prism mock open-api/specs/api-v1.yaml")
              (js "open-api/" ++ js "specs" ++ js "/") = true.
Proof.
  intros r.
  assert (Hv : passes_validation world_in_dir (Str (js "specs/api.yaml")) = true)
    by (vm_compute; reflexivity).
  assert (Hread : readLines world_in_dir (js "specs/api.yaml") = inr [js "version: 1"])
    by (vm_compute; reflexivity).
  assert (Hline : firstVersionLine [js "version: 1"] = Some (js "version: 1"))
    by (vm_compute; reflexivity).
  assert (Hcp : In (ev_copyFile (js "specs/api.yaml")
                      (js "api-spec/v1/open-api/specs/api.yaml")) (events r))
    by (apply In_event; vm_compute; reflexivity).
  assert (Hreg : In (ev_npmAddScript (js "start:prism")
                       (js "prism mock open-api/specs/api-v1.yaml")) (events r))
    by (apply In_event; vm_compute; reflexivity).
  assert (Hkey : In (js "start:prism") open_api_keys)
    by (unfold open_api_keys; cbn [In]; tauto).
  assert (Hsplit : split_first (extname (js "specs/api.yaml")) (js "specs/api.yaml")
                   = Some (js "specs" ++ js "/" ++ js "api", js ""))
    by (vm_compute; reflexivity).
  destruct (copy_destination_and_script_references world_in_dir
              (js "specs/api.yaml") [js "version: 1"] (js "version: 1")
              Hv Hread Hline) as [Hcopy Hscripts].
  split; [exact Hv|]. split; [exact Hread|]. split; [exact Hline|].
  split; [exact Hcp|]. split; [exact (proj2 (Hcopy _ _ Hcp))|].
  split; [exact Hreg|].
  exact (Hscripts _ _ _ _ _ Hreg Hkey Hsplit).
Defined.

(** ** More on the runs: guards, failures, order *)

Section Guards.
Context {World : Type} `{Runtime World}.

(** Past the four guards a run is the three steps on the state the
    messages of the scan leave. *)
Lemma run_past_guards (w : World) (s : jsstring) (lines : list jsstring)
    (line : jsstring) :
  passes_validation w (Str s) = true ->
  readLines w s = inr lines ->
  firstVersionLine lines = Some line ->
  existsSync w (js "./api-spec/" ++ versionNumberOf line) = false ->
  let versionNumber := versionNumberOf line in
  let fnv := replace s (extname s) (js "-" ++ versionNumber ++ extname s) in
  main (Str s) (start_state w) =
  (scaffold versionNumber fnv (replace fnv (extname s) (js "")) ;;
   relocate s versionNumber fnv ;;
   installAndGenerate versionNumber)
    (log (start_state w)
       [console_info msg_start; console_info msg_getting;
        console_info (msg_found versionNumber)]).
Proof.
  intros Hv Hread Hline Hdir versionNumber fnv.
  rewrite (main_versioned s lines line (start_state w)) by assumption.
  rewrite generate_guards. cbn [world log start_state].
  assert (Hex : existsSync w s = true).
  { unfold passes_validation in Hv. cbn in Hv.
    apply andb_prop in Hv as [_ Hv]. now apply andb_prop in Hv as [Hex _]. }
  rewrite Hex, Hdir. reflexivity.
Qed.

Lemma run_version_taken (w : World) (s : jsstring) (lines : list jsstring)
    (line : jsstring) :
  passes_validation w (Str s) = true ->
  readLines w s = inr lines ->
  firstVersionLine lines = Some line ->
  existsSync w (js "./api-spec/" ++ versionNumberOf line) = true ->
  events (run w (Str s)) =
  [console_info msg_start; console_info msg_getting;
   console_info (msg_found (versionNumberOf line));
   console_error (msg_exists (versionNumberOf line))].
Proof.
  intros Hv Hread Hline Hdir.
  rewrite run_from_start.
  rewrite (main_versioned s lines line (start_state w)) by assumption.
  rewrite generate_guards. cbn [world log start_state].
  assert (Hex : existsSync w s = true).
  { unfold passes_validation in Hv. cbn in Hv.
    apply andb_prop in Hv as [_ Hv]. now apply andb_prop in Hv as [Hex _]. }
  rewrite Hex, Hdir. reflexivity.
Qed.

(** X1.  A run touches the outside world only past its four guards:
    whenever its trace holds an operation (a directory made, a command
    run, a script registered, a file copied, renamed or moved), the
    [-f] value was a string that passed validation, the file was read
    and has a version line, and [./api-spec/<version>] was not there. *)
Theorem no_operation_before_guards (w : World) (argv_f : argval) (e : event) :
  In e (events (run w argv_f)) ->
  is_operation e = true ->
  exists s lines line,
    argv_f = Str s
    /\ passes_validation w (Str s) = true
    /\ readLines w s = inr lines
    /\ firstVersionLine lines = Some line
    /\ existsSync w (js "./api-spec/" ++ versionNumberOf line) = false.
Proof.
  intros Hin Hop.
  destruct (run_reaches_generate w argv_f e Hin)
    as (s & lines & line & -> & Hv & Hread & Hline & _).
  - intros msg ->. discriminate.
  - intros msg ->. discriminate.
  - exists s, lines, line. repeat split; try assumption.
    destruct (existsSync w (js "./api-spec/" ++ versionNumberOf line)) eqn:Hdir;
      [|reflexivity].
    rewrite (run_version_taken w s lines line) in Hin by assumption.
    cbn [In] in Hin.
    destruct Hin as [<-|[<-|[<-|[<-|[]]]]]; discriminate.
Qed.

(** X2.  When the line reader cannot read the file that passed
    validation, the run is rejected with the reader's error after the
    two opening messages: the world is as it was, and no version is
    looked for in [api-spec]. *)
Theorem unreadable_file_rejects (w : World) (s : jsstring) (e : error) :
  passes_validation w (Str s) = true ->
  readLines w s = inl e ->
  run w (Str s) =
  {| final := w;
     events := [console_info msg_start; console_info msg_getting];
     settled := Rejected e |}.
Proof.
  intros Hv Hread.
  rewrite run_from_start.
  rewrite (main_validated s (start_state w)) by exact Hv.
  unfold bind at 1, readLinesAsync. cbn [world log start_state].
  rewrite Hread. reflexivity.
Qed.

(** X3.  An input that fails validation gets the diagnostic of the
    first check it fails, in the order flag, path, extension: a value
    that is missing or falsy gets "No file was passed in"; a value that
    names nothing gets "Could not find" with the value, whatever its
    extension; only a path that exists gets the "Filetype" message,
    with its extension. *)
Theorem invalid_input_diagnostic (w : World) (argv_f : argval) :
  passes_validation w argv_f = false ->
  run w argv_f =
  {| final := w;
     events := [console_info msg_start; console_error (diagnostic w argv_f)];
     settled := Fulfilled |}.
Proof.
  unfold passes_validation, diagnostic. intros Hv.
  destruct argv_f as [|s|t text]; cbn in Hv |- *.
  - reflexivity.
  - destruct (negb (eqb s [])) eqn:Ht; cbn in Hv |- *.
    + destruct (existsSync w s) eqn:Hex; cbn in Hv.
      * unfold run, main, bind, when, info, err, emit, ret, return_,
          fs_existsSync, path_extname; cbn.
        rewrite Ht. cbn. rewrite Hex. cbn. rewrite Hv. reflexivity.
      * unfold run, main, bind, when, info, err, emit, ret, return_,
          fs_existsSync; cbn.
        rewrite Ht. cbn. rewrite Hex. reflexivity.
    + unfold run, main, bind, when, info, err, emit, ret, return_; cbn.
      rewrite Ht. reflexivity.
  - destruct t; reflexivity.
Qed.

Lemma scaffold_first_directory_fails (versionNumber fnv fne : jsstring)
    (st : @state World) (w1 : World) (e : error) :
  makeDir (js "api-spec/" ++ versionNumber ++ js "/open-api") (world st)
  = (w1, Some e) ->
  exists st' e',
    scaffold versionNumber fnv fne st = (st', Throw e')
    /\ trace st' = trace st ++ console_info msg_making
                     :: List.map ev_makeDir (version_dirs versionNumber).
Proof.
  intros Hmk.
  unfold scaffold, bind, info, emit, promise_all, run_makeDir, call, ret.
  cbn [world trace]. rewrite Hmk. cbv beta iota. cbn [world trace].
  destruct (makeDir (js "api-spec/" ++ versionNumber ++ js "/swagger-stub") w1)
    as [w2 r2].
  cbv beta iota. cbn [world trace fst].
  destruct (makeDir (js "api-spec/" ++ versionNumber ++ js "/html-docs") w2)
    as [w3 r3].
  cbv beta iota. cbn [world trace fst List.map version_dirs].
  eexists. exists e. split; [reflexivity|].
  cbn [trace]. rewrite <- !app_assoc. reflexivity.
Qed.

(** X4.  When the first of the three directories cannot be made, the
    other two are asked for all the same, since the three calls are
    made before [Promise.all] awaits them, and the run is rejected:
    [npm init] is not run and no script is registered. *)
Theorem first_directory_failure_rejects (w w1 : World) (s : jsstring)
    (lines : list jsstring) (line : jsstring) (e : error) :
  passes_validation w (Str s) = true ->
  readLines w s = inr lines ->
  firstVersionLine lines = Some line ->
  existsSync w (js "./api-spec/" ++ versionNumberOf line) = false ->
  makeDir (js "api-spec/" ++ versionNumberOf line ++ js "/open-api") w = (w1, Some e) ->
  let versionNumber := versionNumberOf line in
  (exists e', settled (run w (Str s)) = Rejected e')
  /\ events (run w (Str s)) =
     [console_info msg_start; console_info msg_getting;
      console_info (msg_found versionNumber); console_info msg_making]
     ++ List.map ev_makeDir (version_dirs versionNumber).
Proof.
  intros Hv Hread Hline Hdir Hmk versionNumber.
  destruct (scaffold_first_directory_fails (versionNumberOf line)
              (replace s (extname s) (js "-" ++ versionNumberOf line ++ extname s))
              (replace (replace s (extname s)
                          (js "-" ++ versionNumberOf line ++ extname s))
                       (extname s) (js ""))
              (log (start_state w)
                 [console_info msg_start; console_info msg_getting;
                  console_info (msg_found (versionNumberOf line))])
              w1 e Hmk) as (st' & e' & Hsc & Htr).
  assert (Hmain : main (Str s) (start_state w) = (st', Throw e')).
  { rewrite (run_past_guards w s lines line) by assumption.
    unfold bind at 1. rewrite Hsc. reflexivity. }
  rewrite run_from_start, Hmain. cbn [events settled].
  split; [exists e'; reflexivity|].
  rewrite Htr. reflexivity.
Qed.

(** *** The order of the operations *)

Lemma bind_assoc {A B C} (m : @M World A) (k : A -> M B) (k' : B -> M C)
    (st : @state World) :
  bind (bind m k) k' st = bind m (fun a => bind (k a) k') st.
Proof. unfold bind. destruct (m st) as [st1 [a| |e]]; reflexivity. Qed.

Ltac trace_walk :=
  first [ apply appends_addScripts; intros ? ? ?
        | apply appends_bind; [| intros ?]
        | apply appends_when
        | apply appends_fs_existsSync
        | apply appends_return
        | apply appends_emit
        | apply appends_call
        | apply appends_promise_all; repeat constructor ].

Ltac not_this_message :=
  let E := fresh in
  intros E; try discriminate E;
  injection E as E; apply (f_equal (fun l => hd 0 l)) in E;
  vm_compute in E; discriminate E.

(** A scaffolding step that completes leaves exactly its events. *)
Lemma scaffold_trace (versionNumber fnv fne : jsstring) (st st' : @state World) :
  scaffold versionNumber fnv fne st = (st', Normal tt) ->
  trace st' = trace st ++ scaffold_events versionNumber fnv fne.
Proof.
  intros Hs. unfold scaffold in Hs.
  apply bind_Normal in Hs as (u1 & st1 & E1 & Hs).
  apply bind_Normal in Hs as (u2 & st2 & E2 & Hs).
  apply bind_Normal in Hs as (u3 & st3 & E3 & Hs).
  apply bind_Normal in Hs as (u4 & st4 & E4 & Hs).
  apply addScripts_Normal in Hs.
  injection E1 as <-. injection E4 as <-.
  pose proof (call_trace (ev_exec (js "npm init -y")) (exec (js "npm init -y")) st2)
    as Ht3.
  unfold run_exec in E3. rewrite E3 in Ht3. cbn [fst] in Ht3.
  match type of E2 with
  | promise_all ?ps ?st0 = _ =>
      assert (Ht2 : trace (fst (promise_all ps st0)) =
                    trace st0 ++ List.map ev_makeDir (version_dirs versionNumber))
        by (apply promise_all_trace; repeat constructor; intros ?;
            apply call_trace)
  end.
  rewrite E2 in Ht2. cbn [fst] in Ht2.
  rewrite Hs. cbn [trace]. rewrite Ht3, Ht2. cbn [trace].
  unfold scaffold_events. rewrite <- !app_assoc. reflexivity.
Qed.

(** The relocation step begins with its message and the copy. *)
Lemma relocate_begins (fileName versionNumber fnv : jsstring) (st : @state World) :
  exists rest,
    trace (fst ((relocate fileName versionNumber fnv ;;
                 installAndGenerate versionNumber) st)) =
    trace st ++
    [console_info msg_moving;
     ev_copyFile fileName
       (js "api-spec/" ++ versionNumber ++ js "/open-api/" ++ fileName)] ++ rest.
Proof.
  unfold relocate. rewrite bind_assoc. unfold bind at 1, info at 1, emit.
  rewrite bind_assoc.
  match goal with
  | |- context [bind (call ?e ?op) ?k ?st0] =>
      assert (Hk : forall a, appends (World:=World) (fun _ => True) (k a))
  end.
  { intros a. unfold installAndGenerate, run_exec, info.
    repeat trace_walk; exact I. }
  unfold bind at 1.
  match goal with
  | |- context [call ?e ?op ?st0] =>
      pose proof (call_trace e op st0) as Hc;
      destruct (call e op st0) as [st1 [a| |e']]
  end; cbn [fst trace] in Hc.
  - match goal with
    | |- context [bind ?m ?k st1] => destruct (Hk a st1) as (evs & E & _)
    end.
    exists evs. rewrite E, Hc. rewrite <- !app_assoc. reflexivity.
  - exists []. cbn [fst]. rewrite Hc, <- !app_assoc. reflexivity.
  - exists []. cbn [fst]. rewrite Hc, <- !app_assoc. reflexivity.
Qed.

(** X5.  A run that prints the message of the relocation step has done,
    before it and in this order: the message of the scaffolding, the
    requests for the three directories, [npm init -y], the 21
    registrations; and right after the message comes the copy of the
    [-f] value to [api-spec/<version>/open-api/<value>]. *)
Theorem events_up_to_the_copy (w : World) (argv_f : argval) :
  In (console_info msg_moving) (events (run w argv_f)) ->
  exists s lines line rest,
    argv_f = Str s
    /\ readLines w s = inr lines
    /\ firstVersionLine lines = Some line
    /\ let versionNumber := versionNumberOf line in
       let fnv := replace s (extname s) (js "-" ++ versionNumber ++ extname s) in
       events (run w argv_f) =
       [console_info msg_start; console_info msg_getting;
        console_info (msg_found versionNumber)]
       ++ scaffold_events versionNumber fnv (replace fnv (extname s) (js ""))
       ++ [console_info msg_moving;
           ev_copyFile s (js "api-spec/" ++ versionNumber ++ js "/open-api/" ++ s)]
       ++ rest.
Proof.
  intros Hin.
  destruct (passes_validation w argv_f) eqn:Hv.
  2:{ destruct (run_invalid_input w argv_f Hv) as (diag & _ & E).
      rewrite E in Hin. cbn [events In] in Hin. exfalso.
      destruct Hin as [E'|[E'|[]]]; revert E'; not_this_message. }
  destruct (passes_validation_Str w argv_f Hv) as [s ->].
  destruct (readLines w s) as [e'|lines] eqn:Hread.
  { rewrite (run_read_error w s e') in Hin by assumption.
    cbn [events In] in Hin. exfalso.
    destruct Hin as [E|[E|[]]]; revert E; not_this_message. }
  destruct (firstVersionLine lines) as [line|] eqn:Hline.
  2:{ rewrite (run_no_version_line w s lines) in Hin by assumption.
      cbn [events In] in Hin. exfalso.
      destruct Hin as [E|[E|[E|[]]]]; revert E; not_this_message. }
  destruct (existsSync w (js "./api-spec/" ++ versionNumberOf line)) eqn:Hdir.
  { rewrite (run_version_taken w s lines line) in Hin by assumption.
    cbn [In] in Hin. exfalso.
    destruct Hin as [E|[E|[E|[E|[]]]]]; revert E; not_this_message. }
  exists s, lines, line.
  rewrite run_from_start in *.
  rewrite (run_past_guards w s lines line) in * by assumption.
  cbv zeta in *.
  set (versionNumber := versionNumberOf line) in *.
  set (fnv := replace s (extname s) _) in *.
  set (fne := replace fnv (extname s) _) in *.
  set (st0 := log (start_state w) _) in *.
  unfold bind at 1. unfold bind at 1 in Hin.
  destruct (scaffold_appends versionNumber fnv fne st0) as (evs & E & F).
  destruct (scaffold versionNumber fnv fne st0) as [st1 c] eqn:Hsc.
  cbn [fst] in E.
  assert (Hquiet : ~ In (console_info msg_moving) (trace st1)).
  { rewrite E. intros Hm. apply in_app_or in Hm as [Hm|Hm].
    - cbn [trace st0 log start_state app In] in Hm.
      destruct Hm as [E'|[E'|[E'|[]]]]; revert E'; not_this_message.
    - rewrite Forall_forall in F. apply list_elem_of_In, F in Hm.
      now apply Hm. }
  destruct c as [[]| |e'].
  - pose proof (scaffold_trace _ _ _ _ _ Hsc) as Ht.
    destruct (relocate_begins s versionNumber fnv st1) as (rest & Hrest).
    exists rest.
    split; [reflexivity|]. split; [exact Hread|]. split; [exact Hline|].
    destruct ((relocate s versionNumber fnv ;; installAndGenerate versionNumber) st1)
      as [st2 c2].
    cbn [fst] in Hrest. cbv beta iota. cbn [events].
    rewrite Hrest, Ht. subst st0. cbn [trace log start_state app].
    rewrite <- ?app_assoc. reflexivity.
  - exfalso. apply Hquiet. exact Hin.
  - exfalso. apply Hquiet. exact Hin.
Qed.

(** *** Where the operations point *)

Lemma starts_with_cancel (a x y : jsstring) :
  starts_with (a ++ x) (a ++ y) = starts_with x y.
Proof.
  induction a as [|c a IH]; [reflexivity|].
  simpl. now rewrite N.eqb_refl.
Qed.

Ltac confined_leaf :=
  cbn [confined version_dirs In];
  first
    [ exact I
    | now auto
    | left; reflexivity
    | right; rewrite !starts_with_cancel; vm_compute; reflexivity
    | repeat split; auto;
      rewrite ?starts_with_cancel;
      first [apply starts_with_app | vm_compute; reflexivity] ].

Lemma generate_confined (fileName extension versionNumber : jsstring) :
  appends (World:=World) (confined versionNumber)
          (generate fileName extension versionNumber).
Proof.
  unfold generate, scaffold, relocate, installAndGenerate, run_exec, run_makeDir,
    info, err.
  repeat trace_walk; confined_leaf.
Qed.

Lemma run_confined (w : World) (argv_f : argval) (e : event) :
  In e (events (run w argv_f)) ->
  is_operation e = true ->
  exists s lines line,
    argv_f = Str s
    /\ readLines w s = inr lines
    /\ firstVersionLine lines = Some line
    /\ confined (versionNumberOf line) e.
Proof.
  intros Hin Hop.
  destruct (run_reaches_generate w argv_f e Hin)
    as (s & lines & line & -> & Hv & Hread & Hline & _).
  - intros msg ->. discriminate.
  - intros msg ->. discriminate.
  - exists s, lines, line. repeat split; try assumption.
    rewrite run_from_start in Hin.
    rewrite (main_versioned s lines line (start_state w)) in Hin by assumption.
    destruct (generate_confined s (extname s) (versionNumberOf line)
                (log (start_state w)
                   [console_info msg_start; console_info msg_getting;
                    console_info (msg_found (versionNumberOf line))]))
      as (evs & E & F).
    destruct (generate _ _ _ _) as [st c]. cbn [fst] in E. cbn [events] in Hin.
    rewrite E in Hin. apply in_app_or in Hin as [Hin|Hin].
    + cbn [trace log start_state app In] in Hin.
      destruct Hin as [<-|[<-|[<-|[]]]]; discriminate.
    + rewrite Forall_forall in F. apply F. now apply list_elem_of_In.
Qed.


(** X7.  The rename of a run never picks up the copy: its source is
    not the destination of the copy, and it is in none of the
    directories the run asked for. *)
Theorem rename_misses_the_copy (w : World) (argv_f : argval)
    (oldPath newPath : jsstring) :
  In (ev_rename oldPath newPath) (events (run w argv_f)) ->
  (forall src dest, In (ev_copyFile src dest) (events (run w argv_f)) ->
                    dest <> oldPath)
  /\ (forall dir, In (ev_makeDir dir) (events (run w argv_f)) ->
                  starts_with (dir ++ js "/") oldPath = false).
Proof.
  intros Hin.
  apply run_reaches_generate in Hin
    as (s & lines & line & -> & _ & Hread & Hline & Hold & _); try discriminate.
  subst oldPath. split.
  - intros src dest Hcp.
    apply run_reaches_generate in Hcp
      as (s' & lines' & line' & E & _ & Hread' & Hline' & _ & Hdest);
      try discriminate.
    injection E as <-. rewrite Hread in Hread'. injection Hread' as <-.
    rewrite Hline in Hline'. injection Hline' as <-.
    subst dest. intros E.
    apply app_inv_head in E. apply app_inv_head in E.
    apply (f_equal (fun l => nth 2 l 0)) in E. vm_compute in E. discriminate E.
  - intros dir Hmk.
    apply run_confined in Hmk as (s' & lines' & line' & E & Hread' & Hline' & Hdir);
      [|reflexivity].
    injection E as <-. rewrite Hread in Hread'. injection Hread' as <-.
    rewrite Hline in Hline'. injection Hline' as <-.
    cbn [version_dirs In] in Hdir.
    destruct Hdir as [<-|[<-|[<-|[]]]];
      rewrite <- !app_assoc, !starts_with_cancel; vm_compute; reflexivity.
Qed.

End Guards.

(** ** The version token and the names made with it *)

Lemma In_trimStart (c : N) (s : jsstring) : In c (trimStart s) -> In c s.
Proof.
  induction s as [|d s IH]; simpl; [tauto|].
  destruct (isWhiteSpace d); [right; now apply IH | tauto].
Qed.

Lemma In_trim (c : N) (s : jsstring) : In c (trim s) -> In c s.
Proof.
  unfold trim, trimEnd. intros Hin.
  apply in_rev, In_trimStart in Hin. apply in_rev in Hin.
  now apply In_trimStart.
Qed.

Lemma trimStart_idem (s : jsstring) : trimStart (trimStart s) = trimStart s.
Proof.
  induction s as [|c s IH]; simpl; [reflexivity|].
  destruct (isWhiteSpace c) eqn:Hc; [exact IH|].
  simpl. now rewrite Hc.
Qed.

Lemma trimStart_snoc (l : jsstring) (c : N) :
  isWhiteSpace c = false -> trimStart (l ++ [c]) = trimStart l ++ [c].
Proof.
  intros Hc. induction l as [|d l IH]; simpl.
  - now rewrite Hc.
  - destruct (isWhiteSpace d); [exact IH | reflexivity].
Qed.

Lemma trimEnd_cons (c : N) (s : jsstring) :
  isWhiteSpace c = false -> trimEnd (c :: s) = c :: trimEnd s.
Proof.
  intros Hc. unfold trimEnd. simpl rev.
  rewrite trimStart_snoc by exact Hc. now rewrite rev_app_distr.
Qed.

Lemma trimEnd_idem (s : jsstring) : trimEnd (trimEnd s) = trimEnd s.
Proof. unfold trimEnd. now rewrite rev_involutive, trimStart_idem. Qed.

(** Trimming leaves nothing to trim. *)
Lemma trim_idem (s : jsstring) : trim (trim s) = trim s.
Proof.
  unfold trim. rewrite <- (trimStart_idem s) at 2.
  destruct (trimStart s) as [|c t] eqn:Ht; [reflexivity|].
  assert (Hc : isWhiteSpace c = false).
  { pose proof (trimStart_idem s) as Hi. rewrite Ht in Hi. simpl in Hi.
    destruct (isWhiteSpace c) eqn:Hc; [|reflexivity].
    exfalso. apply (f_equal (@length N)) in Hi. simpl in Hi.
    assert (Hle : forall l : jsstring, (length (trimStart l) <= length l)%nat).
    { induction l as [|d l IHl]; simpl; [lia|].
      destruct (isWhiteSpace d); simpl; lia. }
    specialize (Hle t). lia. }
  rewrite trimEnd_cons by exact Hc.
  simpl trimStart. rewrite Hc.
  rewrite <- trimEnd_cons by exact Hc. apply trimEnd_idem.
Qed.

(** The characters of the version token past its "v". *)
Lemma versionNumberOf_chars (line : jsstring) :
  exists rest,
    versionNumberOf line = js "v" ++ rest
    /\ trim rest = rest
    /\ forall c, In c rest -> c <> DOT /\ c <> QUOTE /\ (c = DASH \/ In c line).
Proof.
  rewrite versionNumberOf_spec. unfold version_token_single_quotes.
  eexists. split; [reflexivity|]. split; [apply trim_idem|].
  intros c Hin. apply In_trim in Hin. unfold dots_to_dashes in Hin.
  apply in_map_iff in Hin as (x & <- & Hx).
  unfold without in Hx. apply filter_In in Hx as [Hx Hq].
  apply remove_first_In in Hx.
  unfold is_single_quote in Hq.
  destruct (x =? DOT) eqn:Hd.
  - repeat split; [discriminate | discriminate | now left].
  - apply N.eqb_neq in Hd. apply negb_true_iff, N.eqb_neq in Hq.
    repeat split; [exact Hd | exact Hq | now right].
Qed.


(** *** The extension *)

Lemma extname_loop_inv (path : jsstring) (k : nat) (st : ext_state) :
  (k <= length path)%nat ->
  ext_inv path k st -> ext_inv path 0 (extname_loop path k st).
Proof.
  revert st; induction k as [|i IH]; intros st Hk Hinv; [exact Hinv|].
  cbn [extname_loop].
  destruct Hinv as [He Hd].
  destruct (nth i path 0 =? CHAR_FORWARD_SLASH) eqn:Hs.
  - destruct (negb (matchedSlash st)).
    + split; cbn [endIdx startDot].
      * destruct He as [He|He]; [now left | right; lia].
      * destruct Hd as [Hd|[Hd Hn]]; [now left | right; split; [lia | exact Hn]].
    + apply IH; [lia|]. split.
      * destruct He as [He|He]; [now left | right; lia].
      * destruct Hd as [Hd|[Hd Hn]]; [now left | right; split; [lia | exact Hn]].
  - apply IH; [lia|].
    assert (Hdot : (nth i path 0 =? CHAR_DOT) = true ->
                   nth (Z.to_nat (Z.of_nat i)) path 0 = CHAR_DOT).
    { intros E. rewrite Nat2Z.id. now apply N.eqb_eq. }
    unfold ext_inv.
    destruct (endIdx st =? -1)%Z eqn:Hend;
      cbn [endIdx startDot matchedSlash preDotState startPart];
      destruct (nth i path 0 =? CHAR_DOT) eqn:Hc;
      cbn [endIdx startDot matchedSlash preDotState startPart];
      destruct (startDot st =? -1)%Z eqn:Hsd;
      cbn [negb endIdx startDot matchedSlash preDotState startPart];
      try destruct (negb (preDotState st =? 1)%Z);
      cbn [endIdx startDot matchedSlash preDotState startPart];
      rewrite ?Z.eqb_eq, ?Z.eqb_neq in *;
      (split;
       [ destruct He as [He|He]; first [right; lia | left; lia]
       | destruct Hd as [Hd|[Hd Hn]];
         first [ left; lia
               | right; split; [lia | first [exact Hn | now apply Hdot]]
               | exfalso; lia ] ]).
Qed.

Lemma drop_nth (a : nat) (s : jsstring) :
  (a < length s)%nat -> drop a s = nth a s 0 :: drop (S a) s.
Proof.
  revert a; induction s as [|c s IH]; intros a Ha; simpl in Ha; [lia|].
  destruct a as [|a]; [reflexivity|].
  cbn [drop nth]. apply IH. lia.
Qed.

(** The extension is empty, or it is a part of the path that begins
    with a dot. *)
Lemma extname_shape (s : jsstring) :
  extname s = []
  \/ exists before r after,
       s = before ++ (CHAR_DOT :: r) ++ after /\ extname s = CHAR_DOT :: r.
Proof.
  unfold extname.
  assert (Hinit : ext_inv s (length s) ext_init) by (split; now left).
  pose proof (extname_loop_inv s (length s) ext_init (le_n _) Hinit) as [He Hd].
  set (st := extname_loop s (length s) ext_init) in *.
  destruct ((startDot st =? -1)%Z || (endIdx st =? -1)%Z || (preDotState st =? 0)%Z
            || ((preDotState st =? 1)%Z && (startDot st =? endIdx st - 1)%Z
                && (startDot st =? startPart st + 1)%Z)) eqn:Hc;
    [now left | right].
  apply orb_false_elim in Hc as [Hc _].
  apply orb_false_elim in Hc as [Hc _].
  apply orb_false_elim in Hc as [Hsd Hend].
  apply Z.eqb_neq in Hsd, Hend.
  destruct He as [He|He]; [contradiction|].
  destruct Hd as [Hd|[Hd Hn]]; [contradiction|].
  unfold slice.
  set (a := Z.to_nat (startDot st)) in *.
  set (b := Z.to_nat (endIdx st)).
  assert (Hab : (a < b <= length s)%nat) by (unfold a, b; lia).
  assert (Hdrop : drop a s = CHAR_DOT :: drop (S a) s).
  { rewrite <- Hn. apply drop_nth. lia. }
  destruct (b - a)%nat as [|n] eqn:Hn'; [lia|].
  exists (take a s), (take n (drop (S a) s)), (drop n (drop (S a) s)).
  split.
  - rewrite <- (take_drop a s) at 1. rewrite Hdrop.
    cbn [app]. now rewrite take_drop.
  - rewrite Hdrop. reflexivity.
Qed.

(** An extension that passes the check is one of the three, with its
    dot, and it is in the path. *)
Lemma accepted_extension (s : jsstring) :
  bool_decide (substring 1 (extname s) ∈ openApiExtensions) = true ->
  In (extname s) [js ".yaml"; js ".yml"; js ".json"]
  /\ exists before after, s = before ++ extname s ++ after.
Proof.
  intros Hv. apply bool_decide_eq_true in Hv.
  unfold substring, openApiExtensions in Hv.
  destruct (extname_shape s) as [E|(before & r & after & Hs & E)];
    rewrite E in Hv |- *.
  - exfalso. change (drop 1 (@nil N)) with (@nil N) in Hv.
    apply elem_of_union in Hv as [Hv|Hv];
      [apply elem_of_union in Hv as [Hv|Hv]|];
      apply elem_of_singleton in Hv; discriminate Hv.
  - change (drop 1 (CHAR_DOT :: r)) with r in Hv.
    split; [|now exists before, after].
    apply elem_of_union in Hv as [Hv|Hv];
      [apply elem_of_union in Hv as [Hv|Hv]|];
      apply elem_of_singleton in Hv; subst r; cbn [In].
    + left. reflexivity.
    + right. left. reflexivity.
    + right. right. left. reflexivity.
Qed.

(** *** The first occurrence of a pattern *)

Lemma starts_with_eq (pat s : jsstring) :
  starts_with pat s = true -> s = pat ++ drop (length pat) s.
Proof.
  revert s; induction pat as [|p pat IH]; intros s Hs; [reflexivity|].
  destruct s as [|c s]; [discriminate|].
  simpl in Hs. apply andb_prop in Hs as [Hp Hs].
  apply N.eqb_eq in Hp. subst c. cbn [length drop app]. f_equal. now apply IH.
Qed.

Lemma split_first_inv (pat s before after : jsstring) :
  split_first pat s = Some (before, after) ->
  s = before ++ pat ++ after
  /\ forall i, (i < length before)%nat -> starts_with pat (drop i s) = false.
Proof.
  revert before; induction s as [|c s IH]; intros before; simpl.
  - destruct (starts_with pat []) eqn:Hp; [|discriminate].
    intros E. injection E as <- <-. split; [|simpl; lia].
    now apply starts_with_eq in Hp.
  - destruct (starts_with pat (c :: s)) eqn:Hp.
    + intros E. injection E as <- <-. split; [|simpl; lia].
      now apply starts_with_eq in Hp.
    + destruct (split_first pat s) as [[b a]|]; [|discriminate].
      intros E. injection E as <- <-.
      destruct (IH b eq_refl) as [Hs Hfirst]. split.
      * cbn [app]. now f_equal.
      * intros [|i] Hi; [exact Hp|]. cbn [drop]. apply Hfirst. simpl in Hi. lia.
Qed.

Lemma split_first_unfold (pat s : jsstring) :
  split_first pat s =
  if starts_with pat s then Some ([], drop (length pat) s)
  else match s with
       | [] => None
       | c :: s' =>
           match split_first pat s' with
           | Some (before, after) => Some (c :: before, after)
           | None => None
           end
       end.
Proof. destruct s; reflexivity. Qed.

Lemma split_first_intro (pat p a : jsstring) :
  (forall i, (i < length p)%nat -> starts_with pat (drop i (p ++ pat ++ a)) = false) ->
  split_first pat (p ++ pat ++ a) = Some (p, a).
Proof.
  induction p as [|c p IH]; intros Hfirst.
  - cbn [app]. rewrite split_first_unfold, starts_with_app.
    now rewrite drop_app_length.
  - rewrite split_first_unfold.
    pose proof (Hfirst 0%nat ltac:(simpl; lia)) as H0.
    change (starts_with pat ((c :: p) ++ pat ++ a) = false) in H0.
    rewrite H0. cbn [app]. rewrite IH; [reflexivity|].
    intros i Hi. apply (Hfirst (S i)). simpl. lia.
Qed.

Lemma split_first_found (pat p a : jsstring) :
  exists before after, split_first pat (p ++ pat ++ a) = Some (before, after).
Proof.
  induction p as [|c p IH]; rewrite split_first_unfold.
  - cbn [app]. rewrite starts_with_app. eauto.
  - destruct (starts_with pat ((c :: p) ++ pat ++ a)); [eauto|].
    cbn [app]. destruct IH as (b & a' & ->). eauto.
Qed.

(** A match that would have to cover a character the pattern does not
    hold lies before that character. *)
Lemma starts_with_stop (pat x y z : jsstring) (c : N) :
  ~ In c pat ->
  starts_with pat (x ++ c :: y) = true -> starts_with pat (x ++ z) = true.
Proof.
  revert x; induction pat as [|p pat IH]; intros x Hc Hs; [reflexivity|].
  destruct x as [|d x]; cbn [app] in *.
  - exfalso. simpl in Hs. apply andb_prop in Hs as [Hp _].
    apply N.eqb_eq in Hp. apply Hc. now left.
  - simpl in Hs |- *. apply andb_prop in Hs as [Hp Hs]. rewrite Hp. simpl.
    apply IH; [|exact Hs]. intros Hin. apply Hc. now right.
Qed.

Lemma getSubstitution_plain (matched before after tpl : jsstring) :
  ~ In DOLLAR tpl -> getSubstitution matched before after tpl = tpl.
Proof.
  induction tpl as [|c t IH]; intros Hd; [reflexivity|].
  cbn [getSubstitution].
  destruct (c =? DOLLAR) eqn:Hc.
  - exfalso. apply Hd. left. now apply N.eqb_eq.
  - f_equal. apply IH. intros Hin. apply Hd. now right.
Qed.

Lemma accepted_extension_chars (ext : jsstring) :
  In ext [js ".yaml"; js ".yml"; js ".json"] ->
  (exists r, ext = CHAR_DOT :: r) /\ ~ In DASH ext /\ ~ In DOLLAR ext.
Proof.
  cbn [In]. intros [<-|[<-|[<-|[]]]];
    (split; [eexists; reflexivity|]); split; vm_compute; intuition discriminate.
Qed.

(** X9.  For a path with an accepted extension and a version line
    without a dollar sign, the two names the scripts are made with are:
    the path with a dash and the version token put in before the first
    occurrence of the extension, and that name with this occurrence of
    the extension taken out. *)
Theorem derived_file_names (s line : jsstring) :
  bool_decide (substring 1 (extname s) ∈ openApiExtensions) = true ->
  ~ In DOLLAR line ->
  let versionNumber := versionNumberOf line in
  let fileNameWithVersion :=
    replace s (extname s) (js "-" ++ versionNumber ++ extname s) in
  exists before after,
    split_first (extname s) s = Some (before, after)
    /\ s = before ++ extname s ++ after
    /\ fileNameWithVersion =
       before ++ js "-" ++ versionNumber ++ extname s ++ after
    /\ replace fileNameWithVersion (extname s) (js "") =
       before ++ js "-" ++ versionNumber ++ after.
Proof.
  intros Hv Hline versionNumber fileNameWithVersion.
  destruct (accepted_extension s Hv) as [Hext (p & a & Hs)].
  destruct (accepted_extension_chars _ Hext) as ((r & Hr) & Hdash & Hdollar).
  destruct (split_first_found (extname s) p a) as (before & after & Hsplit).
  rewrite <- Hs in Hsplit.
  destruct (split_first_inv _ _ _ _ Hsplit) as [Hbefore Hfirst].
  destruct (versionNumberOf_chars line) as (rest & Hrest & _ & Hchar).
  fold versionNumber in Hrest.
  assert (Hvchar : forall c, In c (js "-" ++ versionNumber) ->
                   c <> CHAR_DOT /\ c <> DOLLAR).
  { intros c Hin. rewrite Hrest in Hin.
    change (js "-" ++ js "v" ++ rest) with (DASH :: 118 :: rest) in Hin.
    destruct Hin as [<-|[<-|Hin]]; try (split; discriminate).
    destruct (Hchar c Hin) as (Hd & _ & [->|Hl]).
    - split; [exact Hd | discriminate].
    - split; [exact Hd | intros ->; contradiction]. }
  exists before, after. split; [exact Hsplit|]. split; [exact Hbefore|].
  assert (Hfnv : fileNameWithVersion =
                 before ++ js "-" ++ versionNumber ++ extname s ++ after).
  { unfold fileNameWithVersion.
    rewrite (split_first_replace _ _ _ _ _ Hsplit).
    rewrite getSubstitution_plain; [now rewrite <- !app_assoc|].
    rewrite app_assoc. intros Hin. apply in_app_or in Hin as [Hin|Hin].
    - now apply Hvchar in Hin as [_ Hin].
    - contradiction. }
  split; [exact Hfnv|].
  rewrite Hfnv.
  replace (before ++ js "-" ++ versionNumber ++ extname s ++ after)
    with ((before ++ js "-" ++ versionNumber) ++ extname s ++ after)
    by now rewrite <- !app_assoc.
  unfold replace. rewrite split_first_intro.
  - change (js "") with (@nil N). cbn [getSubstitution app].
    now rewrite <- !app_assoc.
  - intros i Hi.
    destruct (starts_with (extname s) _) eqn:Hm; [exfalso | reflexivity].
    destruct (Nat.lt_ge_cases i (length before)) as [Hlt|Hge].
    + rewrite <- !app_assoc in Hm.
      rewrite drop_app_le in Hm by lia.
      change (js "-" ++ versionNumber ++ extname s ++ after)
        with (DASH :: versionNumber ++ extname s ++ after) in Hm.
      apply (starts_with_stop _ _ _ (extname s ++ after)) in Hm; [|exact Hdash].
      rewrite <- drop_app_le in Hm by lia.
      rewrite <- Hbefore in Hm. rewrite (Hfirst i Hlt) in Hm. discriminate.
    + rewrite <- (app_assoc before) in Hm.
      rewrite drop_app_ge in Hm by lia.
      rewrite length_app in Hi.
      rewrite <- app_assoc in Hm.
      rewrite (app_assoc (js "-")) in Hm.
      rewrite drop_app_le in Hm by lia.
      destruct (drop (i - length before) (js "-" ++ versionNumber))
        as [|h t] eqn:Hd.
      * apply (f_equal (@length N)) in Hd. rewrite length_drop in Hd.
        change (@length N []) with 0%nat in Hd. lia.
      * assert (Hh : In h (js "-" ++ versionNumber)).
        { apply (In_drop (i - length before)). rewrite Hd. now left. }
        apply Hvchar in Hh as [Hh _].
        rewrite Hr in Hm. cbn [starts_with app] in Hm.
        apply andb_prop in Hm as [Hm _]. apply N.eqb_eq in Hm.
        now apply Hh.
Qed.


(** ** The further properties on the simulated file system *)

Lemma no_operation_before_guards_witness :
  let e := ev_makeDir (js "api-spec/v2-0-0/open-api") in
  In e (events (run world_spec (Str (js "spec.yaml"))))
  /\ is_operation e = true
  /\ exists s lines line,
       Str (js "spec.yaml") = Str s
       /\ passes_validation world_spec (Str s) = true
       /\ readLines world_spec s = inr lines
       /\ firstVersionLine lines = Some line
       /\ existsSync world_spec (js "./api-spec/" ++ versionNumberOf line) = false.
Proof.
  intros e.
  assert (Hin : In e (events (run world_spec (Str (js "spec.yaml")))))
    by (apply In_event; vm_compute; reflexivity).
  assert (Hop : is_operation e = true) by reflexivity.
  split; [exact Hin|]. split; [exact Hop|].
  exact (no_operation_before_guards world_spec (Str (js "spec.yaml")) e Hin Hop).
Defined.

Lemma unreadable_file_rejects_witness :
  passes_validation world_directory (Str (js "spec.yaml")) = true
  /\ readLines world_directory (js "spec.yaml") = inl EISDIR
  /\ run world_directory (Str (js "spec.yaml")) =
     {| final := world_directory;
        events := [console_info msg_start; console_info msg_getting];
        settled := Rejected EISDIR |}.
Proof.
  split; [vm_compute; reflexivity|]. split; [vm_compute; reflexivity|].
  apply (unreadable_file_rejects world_directory (js "spec.yaml") EISDIR).
  - vm_compute. reflexivity.
  - vm_compute. reflexivity.
Defined.

Lemma invalid_input_diagnostic_witness :
  passes_validation world_spec (Str (js "missing.txt")) = false
  /\ diagnostic world_spec (Str (js "missing.txt")) = msg_invalid_file (js "missing.txt")
  /\ run world_spec (Str (js "missing.txt")) =
     {| final := world_spec;
        events := [console_info msg_start;
                   console_error (diagnostic world_spec (Str (js "missing.txt")))];
        settled := Fulfilled |}.
Proof.
  split; [vm_compute; reflexivity|]. split; [vm_compute; reflexivity|].
  apply (invalid_input_diagnostic world_spec (Str (js "missing.txt"))).
  vm_compute. reflexivity.
Defined.

Lemma first_directory_failure_rejects_witness :
  let lines := [js "openapi: 3.0.0"; js "info:"; js "  version: 2.0.0";
                js "  title: Pets"] in
  let done := makeDir (js "api-spec/" ++ versionNumberOf (js "  version: 2.0.0")
                         ++ js "/open-api") world_blocked in
  passes_validation world_blocked (Str (js "spec.yaml")) = true
  /\ existsSync world_blocked (js "./api-spec/" ++ versionNumberOf (js "  version: 2.0.0"))
     = false
  /\ snd done = Some ENOTDIR
  /\ (exists e', settled (run world_blocked (Str (js "spec.yaml"))) = Rejected e')
  /\ events (run world_blocked (Str (js "spec.yaml"))) =
     [console_info msg_start; console_info msg_getting;
      console_info (msg_found (versionNumberOf (js "  version: 2.0.0")));
      console_info msg_making]
     ++ List.map ev_makeDir (version_dirs (versionNumberOf (js "  version: 2.0.0"))).
Proof.
  intros lines done.
  assert (Hv : passes_validation world_blocked (Str (js "spec.yaml")) = true)
    by (vm_compute; reflexivity).
  assert (Hread : readLines world_blocked (js "spec.yaml") = inr lines)
    by (vm_compute; reflexivity).
  assert (Hline : firstVersionLine lines = Some (js "  version: 2.0.0"))
    by (vm_compute; reflexivity).
  assert (Hdir : existsSync world_blocked
                   (js "./api-spec/" ++ versionNumberOf (js "  version: 2.0.0")) = false)
    by (vm_compute; reflexivity).
  assert (Hn : snd done = Some ENOTDIR) by (vm_compute; reflexivity).
  assert (Hmk : done = (fst done, Some ENOTDIR))
    by (rewrite <- Hn; apply surjective_pairing).
  pose proof (first_directory_failure_rejects world_blocked (fst done)
                (js "spec.yaml") lines (js "  version: 2.0.0") ENOTDIR
                Hv Hread Hline Hdir Hmk) as Hrun.
  cbv zeta in Hrun.
  split; [exact Hv|]. split; [exact Hdir|]. split; [exact Hn|].
  exact Hrun.
Defined.

Lemma events_up_to_the_copy_witness :
  let r := run world_spec (Str (js "spec.yaml")) in
  In (console_info msg_moving) (events r)
  /\ exists s lines line rest,
       Str (js "spec.yaml") = Str s
       /\ readLines world_spec s = inr lines
       /\ firstVersionLine lines = Some line
       /\ let versionNumber := versionNumberOf line in
          let fnv := replace s (extname s) (js "-" ++ versionNumber ++ extname s) in
          events r =
          [console_info msg_start; console_info msg_getting;
           console_info (msg_found versionNumber)]
          ++ scaffold_events versionNumber fnv (replace fnv (extname s) (js ""))
          ++ [console_info msg_moving;
              ev_copyFile s (js "api-spec/" ++ versionNumber ++ js "/open-api/" ++ s)]
          ++ rest.
Proof.
  intros r.
  assert (Hin : In (console_info msg_moving) (events r))
    by (apply In_event; vm_compute; reflexivity).
  split; [exact Hin|].
  exact (events_up_to_the_copy world_spec (Str (js "spec.yaml")) Hin).
Defined.


Lemma rename_misses_the_copy_witness :
  let r := run world_spec (Str (js "spec.yaml")) in
  let oldPath := js "api-spec/v2-0-0/ozpen-api/spec.yaml" in
  let newPath := js "api-spec/v2-0-0/open-api/spec-v2-0-0.yaml" in
  In (ev_rename oldPath newPath) (events r)
  /\ In (ev_copyFile (js "spec.yaml") (js "api-spec/v2-0-0/open-api/spec.yaml"))
        (events r)
  /\ js "api-spec/v2-0-0/open-api/spec.yaml" <> oldPath.
Proof.
  intros r oldPath newPath.
  assert (Hin : In (ev_rename oldPath newPath) (events r))
    by (apply In_event; vm_compute; reflexivity).
  assert (Hcp : In (ev_copyFile (js "spec.yaml")
                      (js "api-spec/v2-0-0/open-api/spec.yaml")) (events r))
    by (apply In_event; vm_compute; reflexivity).
  split; [exact Hin|]. split; [exact Hcp|].
  destruct (rename_misses_the_copy world_spec (Str (js "spec.yaml"))
              oldPath newPath Hin) as [Hcopy _].
  exact (Hcopy _ _ Hcp).
Defined.

Lemma derived_file_names_witness :
  bool_decide (substring 1 (extname (js "spec.yaml")) ∈ openApiExtensions) = true
  /\ replace (js "spec.yaml") (extname (js "spec.yaml"))
       (js "-" ++ versionNumberOf (js "  version: 2.0.0") ++ extname (js "spec.yaml"))
     = js "spec-v2-0-0.yaml"
  /\ exists before after,
       split_first (extname (js "spec.yaml")) (js "spec.yaml") = Some (before, after)
       /\ js "spec.yaml" = before ++ extname (js "spec.yaml") ++ after
       /\ replace (js "spec.yaml") (extname (js "spec.yaml"))
            (js "-" ++ versionNumberOf (js "  version: 2.0.0")
               ++ extname (js "spec.yaml"))
          = before ++ js "-" ++ versionNumberOf (js "  version: 2.0.0")
              ++ extname (js "spec.yaml") ++ after
       /\ replace
            (replace (js "spec.yaml") (extname (js "spec.yaml"))
               (js "-" ++ versionNumberOf (js "  version: 2.0.0")
                  ++ extname (js "spec.yaml")))
            (extname (js "spec.yaml")) (js "")
          = before ++ js "-" ++ versionNumberOf (js "  version: 2.0.0") ++ after.
Proof.
  split; [vm_compute; reflexivity|]. split; [vm_compute; reflexivity|].
  apply (derived_file_names (js "spec.yaml") (js "  version: 2.0.0")).
  - vm_compute. reflexivity.
  - intros Hin. vm_compute in Hin. intuition discriminate.
Defined.

